(** * univang::condition_variable — a condition variable on CLOCK_MONOTONIC

    A shallow embedding of [condition_variable.hpp].  The class is a thin
    layer over the pthread condition-variable calls, so the embedding keeps
    the calls the class makes visible: every member function is a
    computation that threads the state of the environment (kernel, clocks,
    other threads) and emits, in program order, one event per external call.

    Conventions:
    - [int] return codes are kept as [Z]; the class only compares them;
    - [time_t] and [long] are the 64-bit signed integers of an LP64 target,
      with the two's complement wrap-around of the arithmetic written out;
    - [std::chrono::duration<Rep, Period>] is taken at a 64-bit signed [Rep];
    - a [while] loop is unrolled under a fuel bound, and running out of fuel
      is an outcome of its own, never confused with a return. *)

From Stdlib Require Import ZArith List Bool Lia String.
Import ListNotations.
Open Scope Z_scope.

(** ** 64-bit signed integers *)

Module Int64.

Definition modulus : Z := 2 ^ 64.
Definition min_signed : Z := - 2 ^ 63.
Definition max_signed : Z := 2 ^ 63 - 1.

Definition in_range (x : Z) : Prop := min_signed <= x <= max_signed.

(** The value a 64-bit signed register holds after computing [x]. *)
Definition wrap (x : Z) : Z := (x + 2 ^ 63) mod modulus - 2 ^ 63.

Definition add (x y : Z) : Z := wrap (x + y).
Definition sub (x y : Z) : Z := wrap (x - y).
Definition mul (x y : Z) : Z := wrap (x * y).

End Int64.

(** ** The part of <chrono> the class uses *)

Module Chrono.

(** [std::ratio<Num, Den>]. *)
Record ratio : Type := mk_ratio { r_num : Z; r_den : Z }.

Definition ratio_one : ratio := mk_ratio 1 1.
Definition nano : ratio := mk_ratio 1 1000000000.

(** [std::ratio_divide<R1, R2>]: the quotient, in lowest terms. *)
Definition ratio_divide (r1 r2 : ratio) : ratio :=
  let n := r_num r1 * r_den r2 in
  let d := r_den r1 * r_num r2 in
  let g := Z.gcd n d in
  mk_ratio (n / g) (d / g).

(** [std::chrono::duration<int64_t, Period>]: a tick count and the length of
    a tick in seconds. *)
Record duration : Type := mk_duration { count : Z; period : ratio }.

Definition seconds (c : Z) : duration := mk_duration c ratio_one.
Definition nanoseconds (c : Z) : duration := mk_duration c nano.

(** [duration_cast<duration<int64_t, To>>(d)], the four cases of
    [time.duration.cast]; the common representation is [intmax_t], integer
    division truncates toward zero. *)
Definition duration_cast (to : ratio) (d : duration) : duration :=
  let cf := ratio_divide (period d) to in
  let c :=
    if (r_num cf =? 1) && (r_den cf =? 1) then count d
    else if r_den cf =? 1 then Int64.mul (count d) (r_num cf)
    else if r_num cf =? 1 then Z.quot (count d) (r_den cf)
    else Z.quot (Int64.mul (count d) (r_num cf)) (r_den cf) in
  mk_duration c to.

(** [a - b] for two durations of the same period. *)
Definition duration_minus (a b : duration) : duration :=
  mk_duration (Int64.sub (count a) (count b)) (period a).

(** [d <= duration::zero()]. *)
Definition le_zero (d : duration) : bool := count d <=? 0.

(** The period of [std::common_type] of two durations:
    [ratio<gcd(num1, num2), lcm(den1, den2)>]. *)
Definition common_period (p q : ratio) : ratio :=
  mk_ratio (Z.gcd (r_num p) (r_num q)) (Z.lcm (r_den p) (r_den q)).

(** [a - b] for durations of any two periods: both operands are converted
    to the common duration, then the tick counts are subtracted. *)
Definition duration_minus_common (a b : duration) : duration :=
  let cp := common_period (period a) (period b) in
  mk_duration
    (Int64.sub (count (duration_cast cp a)) (count (duration_cast cp b)))
    cp.

(** [std::chrono::time_point<Clock, Duration>]: ticks since the clock's
    epoch, in the time point's own [Duration]. *)
Record time_point : Type := mk_time_point { since_epoch : duration }.

(** [abs_time - now] for two time points of one clock: the difference of
    their times since the epoch, in the common duration. *)
Definition time_point_minus (a b : time_point) : duration :=
  duration_minus_common (since_epoch a) (since_epoch b).

End Chrono.

(** ** The environment: pthread, the clocks, the caller's objects *)

Record timespec : Type := mk_timespec { tv_sec : Z; tv_nsec : Z }.

(** [pthread_mutex_t*], an address. *)
Definition native_mutex : Type := Z.

(** [std::unique_lock<std::mutex>] as the class sees it: [mutex()] is the
    stored pointer (null when the lock has no mutex), [owns_lock()] the
    ownership flag. *)
Record unique_lock : Type :=
  mk_unique_lock { mutex : option native_mutex; owns_lock : bool }.

Inductive cv_status : Type := no_timeout | timeout.

(** [std::system_error]: the code (always in [generic_category] here) and the
    optional [what] argument of the constructor. *)
Record system_error : Type :=
  mk_system_error { code : Z; what_arg : option string }.

(** One external call, with what it was given and what it answered. *)
Inductive event : Type :=
| Call_condattr_init (rc : Z)
| Call_condattr_setclock (rc : Z)
| Call_cond_init (rc : Z)
| Call_condattr_destroy
| Call_cond_destroy
| Call_cond_signal (rc : Z)
| Call_cond_broadcast (rc : Z)
| Call_cond_wait (m : native_mutex) (rc : Z)
| Call_cond_timedwait (m : native_mutex) (ts : timespec) (rc : Z)
| Call_clock_gettime (now : timespec)
| Call_Clock_now (now : Chrono.time_point)
| Call_owns_lock (b : bool)
| Call_pred (b : bool).

(** The two calls that can put the thread to sleep. *)
Definition is_blocking (e : event) : bool :=
  match e with
  | Call_cond_wait _ _ | Call_cond_timedwait _ _ _ => true
  | _ => false
  end.

Definition is_owns_lock (e : event) : bool :=
  match e with Call_owns_lock _ => true | _ => false end.

Definition is_clock_gettime (e : event) : bool :=
  match e with Call_clock_gettime _ => true | _ => false end.

(** Why a run left defined behaviour. *)
Inductive undefined_behaviour : Type :=
| Null_mutex_dereference.

Inductive outcome (A : Type) : Type :=
| Returned (a : A)
| Thrown (e : system_error)
| Undefined (u : undefined_behaviour)
| Out_of_fuel.

Arguments Returned {A} a.
Arguments Thrown {A} e.
Arguments Undefined {A} u.
Arguments Out_of_fuel {A}.

Section Environment.

(** The state of everything outside the calling thread. *)
Variable W : Type.

(** What the platform answers.  Each call sees the state and may change it:
    a wait lets other threads run, a clock read lets time pass. *)
Record Env : Type := mk_Env {
  ETIMEDOUT : Z;
  EPERM : Z;
  pthread_condattr_init : W -> Z * W;
  pthread_condattr_setclock : W -> Z * W;
  pthread_cond_init : W -> Z * W;
  pthread_condattr_destroy : W -> W;
  pthread_cond_destroy : W -> W;
  pthread_cond_signal : W -> Z * W;
  pthread_cond_broadcast : W -> Z * W;
  pthread_cond_wait : native_mutex -> W -> Z * W;
  pthread_cond_timedwait : native_mutex -> timespec -> W -> Z * W;
  (** [clock_gettime(CLOCK_MONOTONIC, &res)]: what is in [res] afterwards;
      the class drops the return code. *)
  clock_gettime : W -> timespec * W;
  (** [Clock::now()] of the caller's clock. *)
  Clock_now : W -> Chrono.time_point * W
}.

(** A computation: from the environment's state to an outcome, the new
    state and the calls made, oldest first. *)
Definition M (A : Type) : Type := W -> outcome A * W * list event.

Definition ret {A} (a : A) : M A := fun w => (Returned a, w, []).

Definition bind {A B} (m : M A) (f : A -> M B) : M B :=
  fun w =>
    match m w with
    | (Returned a, w1, t1) =>
        let '(o, w2, t2) := f a w1 in (o, w2, t1 ++ t2)
    | (Thrown e, w1, t1) => (Thrown e, w1, t1)
    | (Undefined u, w1, t1) => (Undefined u, w1, t1)
    | (Out_of_fuel, w1, t1) => (Out_of_fuel, w1, t1)
    end.

Definition throw {A} (e : system_error) : M A := fun w => (Thrown e, w, []).
Definition undefined {A} (u : undefined_behaviour) : M A :=
  fun w => (Undefined u, w, []).
Definition out_of_fuel {A} : M A := fun w => (Out_of_fuel, w, []).

(** An external call: ask the environment, log the answer. *)
Definition call {A} (f : W -> A * W) (log : A -> event) : M A :=
  fun w => let '(a, w1) := f w in (Returned a, w1, [log a]).

Definition call_void (f : W -> W) (log : event) : M unit :=
  fun w => (Returned tt, f w, [log]).

End Environment.

Arguments ETIMEDOUT {W} e.
Arguments EPERM {W} e.
Arguments pthread_condattr_init {W} e w.
Arguments pthread_condattr_setclock {W} e w.
Arguments pthread_cond_init {W} e w.
Arguments pthread_condattr_destroy {W} e w.
Arguments pthread_cond_destroy {W} e w.
Arguments pthread_cond_signal {W} e w.
Arguments pthread_cond_broadcast {W} e w.
Arguments pthread_cond_wait {W} e m w.
Arguments pthread_cond_timedwait {W} e m ts w.
Arguments clock_gettime {W} e w.
Arguments Clock_now {W} e w.
Arguments ret {W A} a.
Arguments bind {W A B} m f.
Arguments throw {W A} e.
Arguments undefined {W A} u.
Arguments out_of_fuel {W A}.
Arguments call {W A} f log.
Arguments call_void {W} f log.

Notation "x <- m ;; k" := (bind m (fun x => k))
  (at level 61, m at next level, right associativity).
Notation "m ;;; k" := (bind m (fun _ => k))
  (at level 61, right associativity).

Definition outcome_of {W A} (r : outcome A * W * list event) : outcome A :=
  fst (fst r).
Definition world_of {W A} (r : outcome A * W * list event) : W :=
  snd (fst r).
Definition calls_of {W A} (r : outcome A * W * list event) : list event :=
  snd r.

(** ** The class *)

Module CondVar.

Section Class.

Variable W : Type.
Variable env : Env W.

(** [std::system_error(ec, std::generic_category())]. *)
Definition generic_error (ec : Z) : system_error := mk_system_error ec None.

(** [std::system_error(std::make_error_code(std::errc::operation_not_permitted),
    "condition_variable: mutex not locked")]. *)
Definition mutex_not_locked : system_error :=
  mk_system_error (EPERM env) (Some "condition_variable: mutex not locked"%string).

(** [lock.owns_lock()]. *)
Definition query_owns_lock (lock : unique_lock) : M W bool :=
  fun w => (Returned (owns_lock lock), w, [Call_owns_lock (owns_lock lock)]).

(** [lock.mutex()->native_handle()]: a member call through the stored
    pointer.  The language leaves it undefined when the pointer is null,
    and the run ends there; what a given compiler makes of it is not
    modelled. *)
Definition mutex_native_handle (lock : unique_lock) : M W native_mutex :=
  match mutex lock with
  | Some m => ret m
  | None => undefined Null_mutex_dereference
  end.

(** [condition_variable()]. *)
Definition condition_variable : M W unit :=
  ec <- call (pthread_condattr_init env) Call_condattr_init ;;
  ec <- (if ec =? 0 then
           ec <- call (pthread_condattr_setclock env) Call_condattr_setclock ;;
           ec <- (if ec =? 0
                  then call (pthread_cond_init env) Call_cond_init
                  else ret ec) ;;
           call_void (pthread_condattr_destroy env) Call_condattr_destroy ;;;
           ret ec
         else ret ec) ;;
  if negb (ec =? 0) then throw (generic_error ec) else ret tt.

(** [~condition_variable()]. *)
Definition destroy : M W unit :=
  call_void (pthread_cond_destroy env) Call_cond_destroy.

Definition notify_one : M W unit :=
  ec <- call (pthread_cond_signal env) Call_cond_signal ;;
  if negb (ec =? 0) then throw (generic_error ec) else ret tt.

Definition notify_all : M W unit :=
  ec <- call (pthread_cond_broadcast env) Call_cond_broadcast ;;
  if negb (ec =? 0) then throw (generic_error ec) else ret tt.

(** [wait(lock)]. *)
Definition wait (lock : unique_lock) : M W unit :=
  owns <- query_owns_lock lock ;;
  if negb owns then throw mutex_not_locked
  else
    mtx <- mutex_native_handle lock ;;
    ec <- call (pthread_cond_wait env mtx) (Call_cond_wait mtx) ;;
    if negb (ec =? 0) then throw (generic_error ec) else ret tt.

(** [wait(lock, pred)]: [while(!pred()) wait(lock);]. *)
Fixpoint wait_pred (fuel : nat) (lock : unique_lock) (pred : W -> bool * W)
  : M W unit :=
  match fuel with
  | O => out_of_fuel
  | S fuel' =>
      b <- call pred Call_pred ;;
      if negb b then wait lock ;;; wait_pred fuel' lock pred
      else ret tt
  end.

(** [to_abs_time_(rel_time)]. *)
Definition to_abs_time_ (rel_time : Chrono.duration) : M W timespec :=
  if Chrono.le_zero rel_time then ret (mk_timespec 0 0)
  else
    res <- call (clock_gettime env) Call_clock_gettime ;;
    let s := Chrono.duration_cast Chrono.ratio_one rel_time in
    let res := mk_timespec (Int64.add (tv_sec res) (Chrono.count s))
                           (tv_nsec res) in
    let ns := Chrono.duration_minus
                (Chrono.duration_cast Chrono.nano rel_time)
                (Chrono.duration_cast Chrono.nano s) in
    let res := mk_timespec (tv_sec res)
                           (Int64.add (tv_nsec res) (Chrono.count ns)) in
    if Chrono.r_den Chrono.nano <=? tv_nsec res then
      ret (mk_timespec (Int64.add (tv_sec res) 1)
                       (Int64.sub (tv_nsec res) (Chrono.r_den Chrono.nano)))
    else ret res.

(** [wait_until_(lock, ts)]. *)
Definition wait_until_ (lock : unique_lock) (ts : timespec) : M W cv_status :=
  mtx <- mutex_native_handle lock ;;
  owns <- query_owns_lock lock ;;
  if negb owns then throw mutex_not_locked
  else
    ec <- call (pthread_cond_timedwait env mtx ts)
               (Call_cond_timedwait mtx ts) ;;
    if ec =? 0 then ret no_timeout
    else if ec =? ETIMEDOUT env then ret timeout
    else throw (generic_error ec).

(** [wait_for(lock, rel_time)]. *)
Definition wait_for (lock : unique_lock) (rel_time : Chrono.duration)
  : M W cv_status :=
  ts <- to_abs_time_ rel_time ;;
  wait_until_ lock ts.

(** The loop of [wait_for(lock, rel_time, pred)]:
    [while(!pred()) if(wait_until_(lock, ts) == timeout) return pred();
     return true;]. *)
Fixpoint wait_for_loop (fuel : nat) (lock : unique_lock) (ts : timespec)
  (pred : W -> bool * W) : M W bool :=
  match fuel with
  | O => out_of_fuel
  | S fuel' =>
      b <- call pred Call_pred ;;
      if negb b then
        st <- wait_until_ lock ts ;;
        match st with
        | timeout => call pred Call_pred
        | no_timeout => wait_for_loop fuel' lock ts pred
        end
      else ret true
  end.

(** [wait_for(lock, rel_time, pred)]. *)
Definition wait_for_pred (fuel : nat) (lock : unique_lock)
  (rel_time : Chrono.duration) (pred : W -> bool * W) : M W bool :=
  ts <- to_abs_time_ rel_time ;;
  wait_for_loop fuel lock ts pred.

(** [wait_until(lock, abs_time)]. *)
Definition wait_until (lock : unique_lock) (abs_time : Chrono.time_point)
  : M W cv_status :=
  now <- call (Clock_now env) Call_Clock_now ;;
  ts <- to_abs_time_ (Chrono.time_point_minus abs_time now) ;;
  wait_until_ lock ts.

(** The loop of [wait_until(lock, abs_time, pred)], written out a second
    time in the source. *)
Fixpoint wait_until_loop (fuel : nat) (lock : unique_lock) (ts : timespec)
  (pred : W -> bool * W) : M W bool :=
  match fuel with
  | O => out_of_fuel
  | S fuel' =>
      b <- call pred Call_pred ;;
      if negb b then
        st <- wait_until_ lock ts ;;
        match st with
        | timeout => call pred Call_pred
        | no_timeout => wait_until_loop fuel' lock ts pred
        end
      else ret true
  end.

(** [wait_until(lock, abs_time, pred)]. *)
Definition wait_until_pred (fuel : nat) (lock : unique_lock)
  (abs_time : Chrono.time_point) (pred : W -> bool * W) : M W bool :=
  now <- call (Clock_now env) Call_Clock_now ;;
  ts <- to_abs_time_ (Chrono.time_point_minus abs_time now) ;;
  wait_until_loop fuel lock ts pred.

End Class.

End CondVar.

Arguments CondVar.generic_error ec : simpl never.
Arguments CondVar.mutex_not_locked {W} env.
Arguments CondVar.query_owns_lock {W} lock w.
Arguments CondVar.mutex_native_handle {W} lock w.
Arguments CondVar.condition_variable {W} env w.
Arguments CondVar.destroy {W} env w.
Arguments CondVar.notify_one {W} env w.
Arguments CondVar.notify_all {W} env w.
Arguments CondVar.wait {W} env lock w.
Arguments CondVar.wait_pred {W} env fuel lock pred w.
Arguments CondVar.to_abs_time_ {W} env rel_time w.
Arguments CondVar.wait_until_ {W} env lock ts w.
Arguments CondVar.wait_for {W} env lock rel_time w.
Arguments CondVar.wait_for_loop {W} env fuel lock ts pred w.
Arguments CondVar.wait_for_pred {W} env fuel lock rel_time pred w.
Arguments CondVar.wait_until {W} env lock abs_time w.
Arguments CondVar.wait_until_loop {W} env fuel lock ts pred w.
Arguments CondVar.wait_until_pred {W} env fuel lock abs_time pred w.

(** ** Properties of runs, read off the calls made *)

(** One of the three initialisation steps answered a nonzero code [rc]. *)
Definition init_step_failed (rc : Z) (calls : list event) : Prop :=
  rc <> 0 /\
  (In (Call_condattr_init rc) calls \/
   In (Call_condattr_setclock rc) calls \/
   In (Call_cond_init rc) calls).

(** The attribute object was created. *)
Definition attr_created (calls : list event) : Prop :=
  In (Call_condattr_init 0) calls.

(** The condition object was created. *)
Definition cond_created (calls : list event) : Prop :=
  In (Call_cond_init 0) calls.

(** The last call of the run destroyed the attribute object. *)
Definition ends_with_attr_destroy (calls : list event) : Prop :=
  exists before, calls = before ++ [Call_condattr_destroy].

(** No call that can block was made. *)
Definition never_blocks (calls : list event) : Prop :=
  existsb is_blocking calls = false.

(** [lock.owns_lock()] was not evaluated. *)
Definition never_checks_ownership (calls : list event) : Prop :=
  existsb is_owns_lock calls = false.

(** The run failed with the error a wait raises on a lock that is not held. *)
Definition fails_precondition {W A} (env : Env W)
  (r : outcome A * W * list event) : Prop :=
  outcome_of r = Thrown (CondVar.mutex_not_locked env).

(** ** A scripted environment

    The environment's state is a script of answers; each call consumes the
    next answer of its kind.  It serves to run the class on concrete
    inputs. *)

Module Script.

Record script : Type := mk_script {
  codes : list Z;          (* answers of the pthread calls, in order *)
  preds : list bool;       (* answers of the predicate, in order *)
  monotonic : timespec;    (* what CLOCK_MONOTONIC reads *)
  caller_clock : Chrono.time_point  (* what the caller's clock reads *)
}.

Definition next_code (s : script) : Z * script :=
  match codes s with
  | [] => (0, s)
  | c :: cs => (c, mk_script cs (preds s) (monotonic s) (caller_clock s))
  end.

(** The predicate handed to the waits: the next scripted answer, [true]
    once the script is exhausted. *)
Definition pred (s : script) : bool * script :=
  match preds s with
  | [] => (true, s)
  | b :: bs => (b, mk_script (codes s) bs (monotonic s) (caller_clock s))
  end.

(** Linux numbers for the two error codes. *)
Definition env : Env script :=
  {| ETIMEDOUT := 110;
     EPERM := 1;
     pthread_condattr_init := next_code;
     pthread_condattr_setclock := next_code;
     pthread_cond_init := next_code;
     pthread_condattr_destroy := fun s => s;
     pthread_cond_destroy := fun s => s;
     pthread_cond_signal := next_code;
     pthread_cond_broadcast := next_code;
     pthread_cond_wait := fun _ => next_code;
     pthread_cond_timedwait := fun _ _ => next_code;
     clock_gettime := fun s => (monotonic s, s);
     Clock_now := fun s => (caller_clock s, s) |}.

Definition at_boot : timespec := mk_timespec 1000 0.
Definition epoch (p : Chrono.ratio) : Chrono.time_point :=
  Chrono.mk_time_point (Chrono.mk_duration 0 p).

Definition start (rcs : list Z) (bs : list bool) : script :=
  mk_script rcs bs at_boot (epoch Chrono.nano).

(** A lock that holds mutex [7], one that has it but does not hold it, and
    one with no mutex at all. *)
Definition held : unique_lock := mk_unique_lock (Some 7) true.
Definition not_held : unique_lock := mk_unique_lock (Some 7) false.
Definition no_mutex : unique_lock := mk_unique_lock None false.

End Script.

(** ** Shapes of the calls a predicate wait makes *)

(** A lock the calling thread holds, on mutex [m]. *)
Definition held_on (lock : unique_lock) (m : native_mutex) : Prop :=
  mutex lock = Some m /\ owns_lock lock = true.

(** The calls of a [wait(lock, pred)] that returned: any number of rounds
    "predicate false, ownership checked, woken up by [pthread_cond_wait]
    with code 0", then one last evaluation of the predicate, which is
    true. *)
Inductive woken_until_true (lock : unique_lock) : list event -> Prop :=
| wut_true : woken_until_true lock [Call_pred true]
| wut_round (m : native_mutex) (t : list event) :
    held_on lock m ->
    woken_until_true lock t ->
    woken_until_true lock
      (Call_pred false :: Call_owns_lock true :: Call_cond_wait m 0 :: t).

(** The calls of the loop of a timed predicate wait that returned [b], at
    deadline [ts]: rounds "predicate false, ownership checked, woken up
    before the deadline (code 0)", ended either by an evaluation of the
    predicate that is true ([b] is [true]), or by a round in which the
    timed wait answers [etimedout] and the predicate is evaluated once
    more, giving [b]. *)
Inductive timed_rounds (lock : unique_lock) (ts : timespec) (etimedout : Z)
  : list event -> bool -> Prop :=
| tr_true : timed_rounds lock ts etimedout [Call_pred true] true
| tr_timeout (m : native_mutex) (b : bool) :
    held_on lock m ->
    timed_rounds lock ts etimedout
      [Call_pred false; Call_owns_lock true;
       Call_cond_timedwait m ts etimedout; Call_pred b] b
| tr_round (m : native_mutex) (t : list event) (b : bool) :
    held_on lock m ->
    timed_rounds lock ts etimedout t b ->
    timed_rounds lock ts etimedout
      (Call_pred false :: Call_owns_lock true ::
       Call_cond_timedwait m ts 0 :: t) b.

(** [n] rounds in which the wait was woken up with code 0 and the predicate
    was still false: what a run that used up its fuel has done. *)
Fixpoint false_rounds (wake : event) (n : nat) : list event :=
  match n with
  | O => []
  | S n' => Call_pred false :: Call_owns_lock true :: wake
            :: false_rounds wake n'
  end.

(** The predicate was seen true before any timed wait answered
    [etimedout]: the reading of "became true strictly before the deadline"
    on the calls of a run. *)
Fixpoint true_before_timeout (etimedout : Z) (calls : list event) : bool :=
  match calls with
  | [] => false
  | Call_pred true :: _ => true
  | Call_cond_timedwait _ _ rc :: rest =>
      if rc =? etimedout then false else true_before_timeout etimedout rest
  | _ :: rest => true_before_timeout etimedout rest
  end.

(** The timed wait answered [etimedout] at some point of the run. *)
Definition timeout_reported (etimedout : Z) (calls : list event) : bool :=
  existsb (fun e => match e with
                    | Call_cond_timedwait _ _ rc => rc =? etimedout
                    | _ => false
                    end) calls.

(** Every timed wait of the run was given the deadline [ts]. *)
Definition all_timedwaits_at (ts : timespec) (calls : list event) : Prop :=
  forall m ts' rc, In (Call_cond_timedwait m ts' rc) calls -> ts' = ts.

(** The monotonic clock was not read. *)
Definition never_reads_clock (calls : list event) : Prop :=
  existsb is_clock_gettime calls = false.

(** ** The absolute waits as the relative ones

    "Subtract the current time on the caller's clock from the target time
    point, then wait for that long": the absolute forms as the
    specification words them. *)

Definition wait_until_as_wait_for {W} (env : Env W) (lock : unique_lock)
  (abs_time : Chrono.time_point) : M W cv_status :=
  now <- call (Clock_now env) Call_Clock_now ;;
  CondVar.wait_for env lock (Chrono.time_point_minus abs_time now).

Definition wait_until_pred_as_wait_for {W} (env : Env W) (fuel : nat)
  (lock : unique_lock) (abs_time : Chrono.time_point)
  (pred : W -> bool * W) : M W bool :=
  now <- call (Clock_now env) Call_Clock_now ;;
  CondVar.wait_for_pred env fuel lock
    (Chrono.time_point_minus abs_time now) pred.

(** ** The deadline as the specification words it

    "Read the current monotonic time [(s0, ns0)]; let [wholeSeconds] be the
    floor of [d] in seconds and [fractionalNanos] be [d - wholeSeconds] in
    nanoseconds; the deadline is [s0 + wholeSeconds] seconds and
    [ns0 + fractionalNanos] nanoseconds; if the nanoseconds reach
    [1_000_000_000], subtract [1_000_000_000] and add one second."
    Plain integers, no machine arithmetic. *)

Module DeadlineSpec.

Definition one_second : Z := 1000000000.

(** [d] counts [count d] ticks of [num / den] seconds each. *)
Definition whole_seconds (d : Chrono.duration) : Z :=
  (Chrono.count d * Chrono.r_num (Chrono.period d))
  / Chrono.r_den (Chrono.period d).

Definition fractional_nanos (d : Chrono.duration) : Z :=
  (((Chrono.count d * Chrono.r_num (Chrono.period d))
    mod Chrono.r_den (Chrono.period d)) * one_second)
  / Chrono.r_den (Chrono.period d).

Definition carry (now : timespec) (d : Chrono.duration) : Z :=
  if one_second <=? tv_nsec now + fractional_nanos d then 1 else 0.

Definition deadline (now : timespec) (d : Chrono.duration) : timespec :=
  mk_timespec (tv_sec now + whole_seconds d + carry now d)
              (tv_nsec now + fractional_nanos d - one_second * carry now d).

(** The nanosecond field is a valid one. *)
Definition valid_nsec (ts : timespec) : Prop :=
  0 <= tv_nsec ts < one_second.

(** The period of [d] is a positive ratio. *)
Definition positive_period (d : Chrono.duration) : Prop :=
  0 < Chrono.r_num (Chrono.period d) /\ 0 < Chrono.r_den (Chrono.period d).

(** [duration_cast<nanoseconds>(d)] does not overflow: the tick count times
    the numerator of the conversion factor fits 64 bits. *)
Definition representable_in_ns (d : Chrono.duration) : Prop :=
  Chrono.count d
  * Chrono.r_num (Chrono.ratio_divide (Chrono.period d) Chrono.nano)
  <= Int64.max_signed.

(** A period of whole seconds: seconds, minutes, hours, days, ... *)
Definition whole_second_period (d : Chrono.duration) : Prop :=
  Chrono.r_den (Chrono.period d) = 1.

(** A period that divides the second decimally: milliseconds,
    microseconds, nanoseconds, ... *)
Definition decimal_fraction_period (d : Chrono.duration) : Prop :=
  Chrono.r_num (Chrono.period d) = 1 /\
  (Chrono.r_den (Chrono.period d) | one_second).

(** The durations [to_abs_time_] splits as the specification does: those
    that fit 64 bits once in nanoseconds, whatever their period, and those
    of the two kinds of period above, whatever their tick count (for them
    the 64-bit products may wrap, and the wrapped parts cancel). *)
Definition splits_exactly (d : Chrono.duration) : Prop :=
  representable_in_ns d \/ whole_second_period d
  \/ decimal_fraction_period d.

End DeadlineSpec.

(** ** An environment with a clock

    One waiting thread, nobody notifies.  The state is the monotonic time in
    nanoseconds, the instant at which another thread raises the flag the
    predicate reads, and the time the waiting thread needs to run again
    once its deadline has passed. *)

Module Timed.

Record world : Type := mk_world {
  clock_ns : Z;
  flag_raised_at : Z;
  wakeup_latency : Z
}.

Definition second : Z := 1000000000.

(** The instant a timespec denotes, in nanoseconds. *)
Definition instant (ts : timespec) : Z := tv_sec ts * second + tv_nsec ts.

Definition read_clock (w : world) : timespec :=
  mk_timespec (clock_ns w / second) (clock_ns w mod second).

(** The predicate: has the flag been raised by now? *)
Definition pred (w : world) : bool * world :=
  (flag_raised_at w <=? clock_ns w, w).

(** The predicate as it would answer at instant [t]. *)
Definition pred_at (w : world) (t : Z) : bool :=
  fst (pred (mk_world t (flag_raised_at w) (wakeup_latency w))).

(** A timed wait nobody interrupts: the thread sleeps to its deadline (not
    at all if that has passed) and runs again [wakeup_latency] later, with
    [ETIMEDOUT]. *)
Definition sleep_until (ts : timespec) (w : world) : Z * world :=
  (110, mk_world (Z.max (clock_ns w) (instant ts) + wakeup_latency w)
                 (flag_raised_at w) (wakeup_latency w)).

Definition env : Env world :=
  {| ETIMEDOUT := 110;
     EPERM := 1;
     pthread_condattr_init := fun w => (0, w);
     pthread_condattr_setclock := fun w => (0, w);
     pthread_cond_init := fun w => (0, w);
     pthread_condattr_destroy := fun w => w;
     pthread_cond_destroy := fun w => w;
     pthread_cond_signal := fun w => (0, w);
     pthread_cond_broadcast := fun w => (0, w);
     pthread_cond_wait := fun _ w => (0, w);
     pthread_cond_timedwait := fun _ => sleep_until;
     clock_gettime := fun w => (read_clock w, w);
     Clock_now := fun w =>
       (Chrono.mk_time_point (Chrono.nanoseconds (clock_ns w)), w) |}.

(** Second 1000 on the clock; the flag is raised half a microsecond after
    second 1001; the thread needs a microsecond to run again. *)
Definition flag_just_after_deadline : world :=
  mk_world (1000 * second) (1001 * second + 500) 1000.

End Timed.

(** ** Concrete runs *)

Module Runs.


(** The monotonic clock one nanosecond short of second 1001. *)
Definition late_in_second : Script.script :=
  Script.mk_script [] [] (mk_timespec 1000 999999999)
    (Script.epoch Chrono.nano).

(** The predicate is true from the start; the lock is not held. *)
Definition true_pred_on_lock_not_held :=
  CondVar.wait_pred Script.env 1 Script.not_held Script.pred
    (Script.start [] [true]).

(** The predicate is false, the timed wait reports the timeout, and the
    predicate evaluated after that is true. *)
Definition true_after_timeout :=
  CondVar.wait_for_pred Script.env 3 Script.held (Chrono.seconds 1)
    Script.pred (Script.start [110] [false; true]).

(** Two wake-ups with the predicate still false, then the predicate is
    true. *)
Definition true_at_third_evaluation :=
  CondVar.wait_pred Script.env 5 Script.held Script.pred
    (Script.start [0; 0] [false; false; true]).

(** One wake-up before the deadline finds the predicate false, the next
    timed wait reports the timeout, the predicate is still false. *)
Definition false_at_timeout :=
  CondVar.wait_for_pred Script.env 5 Script.held (Chrono.seconds 1)
    Script.pred (Script.start [0; 110] [false; false; false]).

(** The largest 64-bit count of ticks of two thirds of a second. *)
Definition longest_two_thirds : Chrono.duration :=
  Chrono.mk_duration Int64.max_signed (Chrono.mk_ratio 2 3).

(** A target time point one second after the caller's epoch. *)
Definition one_second_after_epoch : Chrono.time_point :=
  Chrono.mk_time_point (Chrono.nanoseconds 1000000000).

(** Constructions in which the first, the second, the third and none of
    the initialisation steps fails ([12] is [ENOMEM], [22] is [EINVAL],
    [11] is [EAGAIN] on Linux). *)
Definition construct (rcs : list Z) :=
  CondVar.condition_variable Script.env (Script.start rcs []).

(** Two wake-ups before the deadline with the predicate false, then a
    timeout, in the absolute form. *)
Definition until_times_out :=
  CondVar.wait_until_pred Script.env 5 Script.held one_second_after_epoch
    Script.pred (Script.start [0; 0; 110] [false; false; false; false]).

(** A wait of one second, started at second 1000, for a flag that is
    raised just after second 1001. *)
Definition late_flag :=
  CondVar.wait_for_pred Timed.env 3 Script.held (Chrono.seconds 1)
    Timed.pred Timed.flag_just_after_deadline.

End Runs.

(** ** Counting calls, and the lifetime of an object *)

Definition count_calls (p : event -> bool) (calls : list event) : nat :=
  List.length (filter p calls).

(** [pthread_condattr_init] succeeded. *)
Definition is_attr_created (e : event) : bool :=
  match e with Call_condattr_init rc => rc =? 0 | _ => false end.

Definition is_attr_destroyed (e : event) : bool :=
  match e with Call_condattr_destroy => true | _ => false end.

(** [pthread_cond_init] succeeded. *)
Definition is_cond_created (e : event) : bool :=
  match e with Call_cond_init rc => rc =? 0 | _ => false end.

Definition is_cond_destroyed (e : event) : bool :=
  match e with Call_cond_destroy => true | _ => false end.

(** An object that is constructed and goes out of scope at once: the
    destructor runs when, and only when, the constructor has returned. *)
Definition construct_then_destroy {W} (env : Env W) : M W unit :=
  CondVar.condition_variable env ;;; CondVar.destroy env.

(** Every timed wait of the run was handed a timespec with a valid
    nanosecond field. *)
Definition all_timedwaits_valid (calls : list event) : Prop :=
  forall m ts rc,
    In (Call_cond_timedwait m ts rc) calls -> DeadlineSpec.valid_nsec ts.

(** A duration in nanoseconds, truncated. *)
Definition duration_ns (d : Chrono.duration) : Z :=
  (Chrono.count d * Chrono.r_num (Chrono.period d) * DeadlineSpec.one_second)
  / Chrono.r_den (Chrono.period d).

(** ** An environment that never lets the thread sleep

    Every pthread call answers [0]: each wait is a wake-up without a
    timeout.  The state counts the readings of the monotonic clock. *)

Module Restless.

Definition env : Env nat :=
  {| ETIMEDOUT := 110;
     EPERM := 1;
     pthread_condattr_init := fun n => (0, n);
     pthread_condattr_setclock := fun n => (0, n);
     pthread_cond_init := fun n => (0, n);
     pthread_condattr_destroy := fun n => n;
     pthread_cond_destroy := fun n => n;
     pthread_cond_signal := fun n => (0, n);
     pthread_cond_broadcast := fun n => (0, n);
     pthread_cond_wait := fun _ n => (0, n);
     pthread_cond_timedwait := fun _ _ n => (0, n);
     clock_gettime := fun n => (mk_timespec 1000 0, S n);
     Clock_now := fun n => (Script.epoch Chrono.nano, n) |}.

(** A predicate that never holds. *)
Definition never (n : nat) : bool * nat := (false, n).

End Restless.

(** ** More concrete runs *)

Module MoreRuns.



(** 999 picoseconds. *)
Definition ps_999 : Chrono.duration :=
  Chrono.mk_duration 999 (Chrono.mk_ratio 1 1000000000000).

(** The caller's clock reads two seconds past its epoch. *)
Definition caller_at_two_seconds : Script.script :=
  Script.mk_script [110] [false; false] Script.at_boot
    (Chrono.mk_time_point (Chrono.nanoseconds 2000000000)).

End MoreRuns.

(** * Theorems *)

(** ** 64-bit arithmetic and duration conversions *)

Section Arithmetic.

Lemma wrap_in_range (x : Z) : Int64.in_range x -> Int64.wrap x = x.
Proof.
  unfold Int64.in_range, Int64.wrap, Int64.modulus, Int64.min_signed,
    Int64.max_signed.
  intros H. rewrite Z.mod_small; lia.
Qed.

Lemma wrap_range (x : Z) : Int64.in_range (Int64.wrap x).
Proof.
  unfold Int64.in_range, Int64.wrap, Int64.modulus, Int64.min_signed,
    Int64.max_signed.
  pose proof (Z.mod_pos_bound (x + 2 ^ 63) (2 ^ 64) ltac:(lia)). lia.
Qed.

Lemma wrap_add_wrap_l (x y : Z) :
  Int64.wrap (Int64.wrap x + y) = Int64.wrap (x + y).
Proof.
  unfold Int64.wrap, Int64.modulus.
  replace ((x + 2 ^ 63) mod 2 ^ 64 - 2 ^ 63 + y + 2 ^ 63)
    with ((x + 2 ^ 63) mod 2 ^ 64 + y) by lia.
  rewrite Zplus_mod_idemp_l. f_equal. f_equal. lia.
Qed.

Lemma wrap_mod (x : Z) :
  Int64.wrap x mod Int64.modulus = x mod Int64.modulus.
Proof.
  unfold Int64.wrap, Int64.modulus.
  rewrite Zminus_mod_idemp_l. f_equal. lia.
Qed.

(** Two integers that agree modulo [2^64] wrap to the same value. *)
Lemma wrap_congruent (a b : Z) :
  a mod Int64.modulus = b mod Int64.modulus -> Int64.wrap a = Int64.wrap b.
Proof.
  intros E. unfold Int64.wrap.
  rewrite <- (Zplus_mod_idemp_l a), <- (Zplus_mod_idemp_l b), E.
  reflexivity.
Qed.

Lemma wrap_add_wrap_r (x y : Z) :
  Int64.wrap (x + Int64.wrap y) = Int64.wrap (x + y).
Proof.
  apply wrap_congruent.
  rewrite <- Zplus_mod_idemp_r, wrap_mod, Zplus_mod_idemp_r. reflexivity.
Qed.

Lemma wrap_mul_wrap_l (x k : Z) :
  Int64.wrap (Int64.wrap x * k) = Int64.wrap (x * k).
Proof.
  apply wrap_congruent.
  rewrite <- Zmult_mod_idemp_l, wrap_mod, Zmult_mod_idemp_l. reflexivity.
Qed.

Lemma wrap_sub_wrap (a b : Z) :
  Int64.wrap (Int64.wrap a - Int64.wrap b) = Int64.wrap (a - b).
Proof.
  apply wrap_congruent.
  rewrite Zminus_mod, !wrap_mod, <- Zminus_mod. reflexivity.
Qed.

(** Reducing a fraction does not change its truncated multiples. *)
Lemma reduced_quotient (c n d : Z) :
  0 < n -> 0 < d ->
  (c * (n / Z.gcd n d)) / (d / Z.gcd n d) = (c * n) / d.
Proof.
  intros Hn Hd.
  pose proof (Z.gcd_nonneg n d) as G0.
  assert (G : 0 < Z.gcd n d).
  { destruct (Z.eq_dec (Z.gcd n d) 0) as [E | NE]; [| lia].
    apply Z.gcd_eq_0_l in E. lia. }
  destruct (Z.gcd_divide_l n d) as [n' En].
  destruct (Z.gcd_divide_r n d) as [d' Ed].
  set (g := Z.gcd n d) in *. clearbody g. subst n d.
  rewrite !Z.div_mul by lia.
  assert (0 < d') by nia.
  rewrite Z.mul_assoc. rewrite Z.div_mul_cancel_r by lia. reflexivity.
Qed.

Lemma reduced_positive (n d : Z) :
  0 < n -> 0 < d -> 0 < n / Z.gcd n d /\ 0 < d / Z.gcd n d.
Proof.
  intros Hn Hd.
  pose proof (Z.gcd_nonneg n d) as G0.
  assert (G : 0 < Z.gcd n d).
  { destruct (Z.eq_dec (Z.gcd n d) 0) as [E | NE]; [| lia].
    apply Z.gcd_eq_0_l in E. lia. }
  destruct (Z.gcd_divide_l n d) as [n' En].
  destruct (Z.gcd_divide_r n d) as [d' Ed].
  set (g := Z.gcd n d) in *. clearbody g. subst n d.
  rewrite !Z.div_mul by lia. nia.
Qed.

(** A conversion whose product fits 64 bits is the exact truncated
    quotient, whichever of the four cases computes it. *)
Lemma duration_cast_exact (to : Chrono.ratio) (d : Chrono.duration) :
  0 < Chrono.r_num (Chrono.period d) ->
  0 < Chrono.r_den (Chrono.period d) ->
  0 < Chrono.r_num to -> 0 < Chrono.r_den to ->
  0 <= Chrono.count d ->
  Chrono.count d * Chrono.r_num (Chrono.ratio_divide (Chrono.period d) to)
    <= Int64.max_signed ->
  Chrono.count (Chrono.duration_cast to d) =
    (Chrono.count d * (Chrono.r_num (Chrono.period d) * Chrono.r_den to))
    / (Chrono.r_den (Chrono.period d) * Chrono.r_num to).
Proof.
  intros N D TN TD C R.
  set (n := Chrono.r_num (Chrono.period d) * Chrono.r_den to).
  set (dd := Chrono.r_den (Chrono.period d) * Chrono.r_num to).
  assert (Hn : 0 < n) by (subst n; nia).
  assert (Hd : 0 < dd) by (subst dd; nia).
  destruct (reduced_positive n dd Hn Hd) as [Pn Pd].
  rewrite <- (reduced_quotient (Chrono.count d) n dd Hn Hd).
  unfold Chrono.duration_cast, Chrono.ratio_divide in *.
  fold n dd in R |- *. cbn [Chrono.r_num Chrono.r_den Chrono.count] in *.
  set (num' := n / Z.gcd n dd) in *. set (den' := dd / Z.gcd n dd) in *.
  assert (W : Int64.mul (Chrono.count d) num' = Chrono.count d * num').
  { apply wrap_in_range. unfold Int64.in_range, Int64.min_signed. nia. }
  destruct (Z.eqb_spec num' 1) as [E1 | N1];
    destruct (Z.eqb_spec den' 1) as [E2 | N2]; cbn [andb].
  - rewrite E1, E2, Z.mul_1_r, Z.div_1_r. reflexivity.
  - rewrite E1, Z.mul_1_r. apply Z.quot_div_nonneg; lia.
  - rewrite W, E2, Z.div_1_r. reflexivity.
  - rewrite W. apply Z.quot_div_nonneg; nia.
Qed.

Lemma wrap_idempotent (x : Z) : Int64.wrap (Int64.wrap x) = Int64.wrap x.
Proof. apply wrap_in_range, wrap_range. Qed.

(** A conversion whose factor is a whole number multiplies by it, modulo
    [2^64]. *)
Lemma duration_cast_whole_factor (to : Chrono.ratio) (d : Chrono.duration) :
  Chrono.r_den (Chrono.ratio_divide (Chrono.period d) to) = 1 ->
  Int64.wrap (Chrono.count (Chrono.duration_cast to d)) =
  Int64.wrap (Chrono.count d
              * Chrono.r_num (Chrono.ratio_divide (Chrono.period d) to)).
Proof.
  intros E. unfold Chrono.duration_cast. cbn [Chrono.count].
  rewrite E. cbn [Z.eqb Pos.eqb].
  destruct (Z.eqb_spec
              (Chrono.r_num (Chrono.ratio_divide (Chrono.period d) to)) 1)
    as [E1 | N1]; cbn [andb].
  - rewrite E1, Z.mul_1_r. reflexivity.
  - apply wrap_idempotent.
Qed.

(** A conversion whose factor is one over a whole number divides by it. *)
Lemma duration_cast_unit_fraction (to : Chrono.ratio) (d : Chrono.duration) :
  Chrono.r_num (Chrono.ratio_divide (Chrono.period d) to) = 1 ->
  Chrono.count (Chrono.duration_cast to d) =
  Z.quot (Chrono.count d)
         (Chrono.r_den (Chrono.ratio_divide (Chrono.period d) to)).
Proof.
  intros E. unfold Chrono.duration_cast. cbn [Chrono.count].
  rewrite E. cbn [Z.eqb Pos.eqb].
  destruct (Z.eqb_spec
              (Chrono.r_den (Chrono.ratio_divide (Chrono.period d) to)) 1)
    as [E1 | N1]; cbn [andb].
  - rewrite E1, Z.quot_1_r. reflexivity.
  - reflexivity.
Qed.

(** Seconds to nanoseconds is a multiplication by [10^9]. *)
Lemma seconds_to_nanoseconds (S : Z) :
  Chrono.count (Chrono.duration_cast Chrono.nano (Chrono.seconds S)) =
  Int64.mul S 1000000000.
Proof. reflexivity. Qed.

(** The conversion factor to nanoseconds is at least the one to seconds. *)
Lemma seconds_factor_le_nanoseconds_factor (p : Chrono.ratio) :
  0 < Chrono.r_num p -> 0 < Chrono.r_den p ->
  Chrono.r_num (Chrono.ratio_divide p Chrono.ratio_one) <=
  Chrono.r_num (Chrono.ratio_divide p Chrono.nano).
Proof.
  intros N D. unfold Chrono.ratio_divide, Chrono.ratio_one, Chrono.nano.
  cbn [Chrono.r_num Chrono.r_den]. rewrite !Z.mul_1_r.
  set (n := Chrono.r_num p) in *. set (d := Chrono.r_den p) in *.
  set (K := 1000000000).
  assert (G1 : 0 < Z.gcd n d).
  { pose proof (Z.gcd_nonneg n d).
    destruct (Z.eq_dec (Z.gcd n d) 0) as [E | NE]; [| lia].
    apply Z.gcd_eq_0_l in E. lia. }
  assert (G2 : 0 < Z.gcd (n * K) d).
  { pose proof (Z.gcd_nonneg (n * K) d).
    destruct (Z.eq_dec (Z.gcd (n * K) d) 0) as [E | NE]; [| lia].
    apply Z.gcd_eq_0_l in E. subst K. lia. }
  assert (Dv : (Z.gcd (n * K) d | Z.gcd n d * K)).
  { rewrite <- Z.gcd_mul_mono_r_nonneg by (subst K; lia).
    apply Z.gcd_greatest.
    - apply Z.gcd_divide_l.
    - apply Z.divide_mul_l. apply Z.gcd_divide_r. }
  assert (Le : Z.gcd (n * K) d <= Z.gcd n d * K).
  { apply Z.divide_pos_le; [subst K; lia | exact Dv]. }
  replace (n / Z.gcd n d) with ((n * K) / (Z.gcd n d * K))
    by (apply Z.div_mul_cancel_r; subst K; lia).
  apply Z.div_le_compat_l; [subst K; lia | lia].
Qed.

(** The nanoseconds beyond the whole seconds: what is left, and where it
    lies. *)
Lemma fraction_of_second (a D K : Z) :
  0 <= a -> 0 < D -> 0 < K ->
  (a * K) / D - (a / D) * K = ((a mod D) * K) / D /\
  0 <= ((a mod D) * K) / D < K.
Proof.
  intros A HD HK.
  pose proof (Z.div_mod a D ltac:(lia)) as E.
  pose proof (Z.mod_pos_bound a D HD) as B.
  split.
  - replace (a * K) with ((a / D) * K * D + (a mod D) * K) by nia.
    rewrite Z.div_add_l by lia. lia.
  - split.
    + apply Z.div_pos; nia.
    + apply Z.div_lt_upper_bound; nia.
Qed.

End Arithmetic.

(** ** Construction *)

Section Construction.

Context {W : Type} (env : Env W).

Ltac dismiss_calls :=
  repeat match goal with
         | H : False |- _ => destruct H
         | H : _ \/ _ |- _ => destruct H
         | H : _ /\ _ |- _ => destruct H
         | H : exists _, _ |- _ => destruct H
         | H : @eq event _ _ |- _ => discriminate H
         | H : @eq (outcome _) _ _ |- _ => discriminate H
         | H : @eq event _ _ |- _ => injection H as H
         | H : ~ _ |- _ => exfalso; apply H; clear H
         end;
  try congruence.

Lemma condition_variable_cases (w : W) :
  let r := CondVar.condition_variable env w in
  (exists rc, rc <> 0 /\
     outcome_of r = Thrown (CondVar.generic_error rc) /\
     calls_of r = [Call_condattr_init rc]) \/
  (exists rc, rc <> 0 /\
     outcome_of r = Thrown (CondVar.generic_error rc) /\
     calls_of r = [Call_condattr_init 0; Call_condattr_setclock rc;
                   Call_condattr_destroy]) \/
  (exists rc, rc <> 0 /\
     outcome_of r = Thrown (CondVar.generic_error rc) /\
     calls_of r = [Call_condattr_init 0; Call_condattr_setclock 0;
                   Call_cond_init rc; Call_condattr_destroy]) \/
  (outcome_of r = Returned tt /\
   calls_of r = [Call_condattr_init 0; Call_condattr_setclock 0;
                 Call_cond_init 0; Call_condattr_destroy]).
Proof.
  unfold CondVar.condition_variable, bind, call, call_void, ret, throw,
    outcome_of, calls_of.
  destruct (pthread_condattr_init env w) as [rc1 w1].
  destruct (Z.eqb_spec rc1 0) as [-> | N1]; cbn.
  - destruct (pthread_condattr_setclock env w1) as [rc2 w2].
    destruct (Z.eqb_spec rc2 0) as [-> | N2]; cbn.
    + destruct (pthread_cond_init env w2) as [rc3 w3]; cbn.
      destruct (Z.eqb_spec rc3 0) as [-> | N3]; cbn.
      * right; right; right; split; reflexivity.
      * right; right; left; exists rc3; repeat split; assumption.
    + destruct (Z.eqb_spec rc2 0) as [E | _]; [contradiction |]; cbn.
      right; left; exists rc2; repeat split; assumption.
  - destruct (Z.eqb_spec rc1 0) as [E | _]; [contradiction |]; cbn.
    left; exists rc1; repeat split; assumption.
Qed.

(** C8.  The constructor throws exactly when one of the three
    initialisation steps (attribute creation, setting the monotonic clock
    on the attribute, creation of the condition object) answers a nonzero
    code, and the [system_error] thrown carries that code.  On a failing
    run in which the attribute object had been created, destroying it is
    the last call made before the throw.  No failing run has created the
    condition object; a run that returns has created it, and has destroyed
    the attribute object as well.  The constructor always ends in one of
    these two ways. *)
Theorem construct_fails_iff_init_step_fails (w : W) :
  let r := CondVar.condition_variable env w in
  ((exists e, outcome_of r = Thrown e) <->
   (exists rc, init_step_failed rc (calls_of r))) /\
  (forall e, outcome_of r = Thrown e ->
     e = CondVar.generic_error (code e) /\
     init_step_failed (code e) (calls_of r)) /\
  (forall e, outcome_of r = Thrown e ->
     attr_created (calls_of r) -> ends_with_attr_destroy (calls_of r)) /\
  (forall e, outcome_of r = Thrown e -> ~ cond_created (calls_of r)) /\
  (outcome_of r = Returned tt ->
     cond_created (calls_of r) /\ ends_with_attr_destroy (calls_of r)) /\
  (outcome_of r = Returned tt \/ exists e, outcome_of r = Thrown e).
Proof.
  intros r.
  unfold init_step_failed, attr_created, cond_created.
  destruct (condition_variable_cases w)
    as [(rc & N & O & C) | [(rc & N & O & C) | [(rc & N & O & C) | (O & C)]]];
    fold r in O, C; rewrite O, C; cbn.
  all: repeat match goal with |- _ /\ _ => split end.
  all: try (intros e E; inversion E; subst e; cbn).
  all: try discriminate.
  all: try solve [right; eexists; reflexivity | left; reflexivity].
  all: try solve [intros; match goal with
                          | |- ends_with_attr_destroy ?l =>
                              exists (removelast l); reflexivity
                          end].
  all: try solve [split; [intros _; exists rc; cbn; auto 8
                         | intros _; eexists; reflexivity]].
  all: try solve [cbn; auto 8].
  all: try solve [intros; dismiss_calls].
  all: try solve [intros I; dismiss_calls].
  - split; intros H; dismiss_calls.
  - intros _; split; [cbn; auto 8 |].
    exists [Call_condattr_init 0; Call_condattr_setclock 0; Call_cond_init 0].
    reflexivity.
Qed.

End Construction.

(** ** Single waits *)

Section Waits.

Context {W : Type} (env : Env W).

Lemma wait_not_held (lock : unique_lock) (w : W) :
  owns_lock lock = false ->
  CondVar.wait env lock w =
  (Thrown (CondVar.mutex_not_locked env), w, [Call_owns_lock false]).
Proof.
  intros H. unfold CondVar.wait, CondVar.query_owns_lock, bind.
  rewrite H. reflexivity.
Qed.

Lemma wait_held (lock : unique_lock) (m : native_mutex) (w : W) :
  owns_lock lock = true -> mutex lock = Some m ->
  CondVar.wait env lock w =
  let '(rc, w1) := pthread_cond_wait env m w in
  (if rc =? 0 then Returned tt else Thrown (CondVar.generic_error rc),
   w1, [Call_owns_lock true; Call_cond_wait m rc]).
Proof.
  intros H M.
  unfold CondVar.wait, CondVar.query_owns_lock, CondVar.mutex_native_handle,
    bind, call, ret, throw.
  rewrite H, M; cbn.
  destruct (pthread_cond_wait env m w) as [rc w1]; cbn.
  destruct (rc =? 0); reflexivity.
Qed.

Lemma wait_until__no_mutex (lock : unique_lock) (ts : timespec) (w : W) :
  mutex lock = None ->
  CondVar.wait_until_ env lock ts w =
  (Undefined Null_mutex_dereference, w, []).
Proof.
  intros M. unfold CondVar.wait_until_, CondVar.mutex_native_handle, bind.
  rewrite M. reflexivity.
Qed.

Lemma wait_until__not_held (lock : unique_lock) (m : native_mutex)
  (ts : timespec) (w : W) :
  mutex lock = Some m -> owns_lock lock = false ->
  CondVar.wait_until_ env lock ts w =
  (Thrown (CondVar.mutex_not_locked env), w, [Call_owns_lock false]).
Proof.
  intros M H.
  unfold CondVar.wait_until_, CondVar.mutex_native_handle,
    CondVar.query_owns_lock, bind, ret.
  rewrite M, H. reflexivity.
Qed.

Lemma wait_until__held (lock : unique_lock) (m : native_mutex)
  (ts : timespec) (w : W) :
  mutex lock = Some m -> owns_lock lock = true ->
  CondVar.wait_until_ env lock ts w =
  let '(rc, w1) := pthread_cond_timedwait env m ts w in
  (if rc =? 0 then Returned no_timeout
   else if rc =? ETIMEDOUT env then Returned timeout
   else Thrown (CondVar.generic_error rc),
   w1, [Call_owns_lock true; Call_cond_timedwait m ts rc]).
Proof.
  intros M H.
  unfold CondVar.wait_until_, CondVar.mutex_native_handle,
    CondVar.query_owns_lock, bind, call, ret, throw.
  rewrite M, H; cbn.
  destruct (pthread_cond_timedwait env m ts w) as [rc w1]; cbn.
  destruct (rc =? 0); [reflexivity |].
  destruct (rc =? ETIMEDOUT env); reflexivity.
Qed.

(** The notifications make their one call and throw what it answers when
    that is not [0]. *)
Lemma notify_one_run (w : W) :
  CondVar.notify_one env w =
  let '(rc, w1) := pthread_cond_signal env w in
  (if rc =? 0 then Returned tt else Thrown (CondVar.generic_error rc),
   w1, [Call_cond_signal rc]).
Proof.
  unfold CondVar.notify_one, bind, call, ret, throw.
  destruct (pthread_cond_signal env w) as [rc w1]; cbn.
  destruct (rc =? 0); reflexivity.
Qed.

Lemma notify_all_run (w : W) :
  CondVar.notify_all env w =
  let '(rc, w1) := pthread_cond_broadcast env w in
  (if rc =? 0 then Returned tt else Thrown (CondVar.generic_error rc),
   w1, [Call_cond_broadcast rc]).
Proof.
  unfold CondVar.notify_all, bind, call, ret, throw.
  destruct (pthread_cond_broadcast env w) as [rc w1]; cbn.
  destruct (rc =? 0); reflexivity.
Qed.

(** The deadline computation always returns, and calls nothing but the
    monotonic clock, at most once. *)
Lemma to_abs_time__returns (d : Chrono.duration) (w : W) :
  exists ts w1 t,
    CondVar.to_abs_time_ env d w = (Returned ts, w1, t) /\
    (t = [] \/ exists now, t = [Call_clock_gettime now]).
Proof.
  unfold CondVar.to_abs_time_, bind, call, ret.
  destruct (Chrono.le_zero d).
  - do 3 eexists; split; [reflexivity | now left].
  - destruct (clock_gettime env w) as [now w1]; cbn.
    match goal with |- context [if ?c then _ else _] => destruct c end;
      do 3 eexists; (split; [reflexivity | right; eexists; reflexivity]).
Qed.

Lemma wait_for_ends_in_wait_until_ (lock : unique_lock)
  (d : Chrono.duration) (w : W) :
  exists ts w1 t,
    CondVar.to_abs_time_ env d w = (Returned ts, w1, t) /\
    outcome_of (CondVar.wait_for env lock d w) =
      outcome_of (CondVar.wait_until_ env lock ts w1) /\
    calls_of (CondVar.wait_for env lock d w) =
      t ++ calls_of (CondVar.wait_until_ env lock ts w1).
Proof.
  destruct (to_abs_time__returns d w) as (ts & w1 & t & E & _).
  exists ts, w1, t. split; [exact E |].
  unfold CondVar.wait_for, bind. rewrite E.
  destruct (CondVar.wait_until_ env lock ts w1) as [[o w2] t2].
  split; reflexivity.
Qed.

Lemma wait_until_ends_in_wait_until_ (lock : unique_lock)
  (abs_time : Chrono.time_point) (w : W) :
  exists now w0 ts w1 t,
    Clock_now env w = (now, w0) /\
    CondVar.to_abs_time_ env (Chrono.time_point_minus abs_time now) w0 =
      (Returned ts, w1, t) /\
    outcome_of (CondVar.wait_until env lock abs_time w) =
      outcome_of (CondVar.wait_until_ env lock ts w1) /\
    calls_of (CondVar.wait_until env lock abs_time w) =
      Call_Clock_now now :: t ++ calls_of (CondVar.wait_until_ env lock ts w1).
Proof.
  destruct (Clock_now env w) as [now w0] eqn:N.
  destruct (to_abs_time__returns (Chrono.time_point_minus abs_time now) w0)
    as (ts & w1 & t & E & _).
  exists now, w0, ts, w1, t. split; [reflexivity |]. split; [exact E |].
  unfold CondVar.wait_until, bind, call. rewrite N, E.
  destruct (CondVar.wait_until_ env lock ts w1) as [[o w2] t2].
  split; reflexivity.
Qed.

(** C4.  A timed wait on a held lock hands the deadline to
    [pthread_cond_timedwait] once, and maps its answer [rc] as follows:
    [0] returns [no_timeout]; [ETIMEDOUT] returns [timeout]; every other
    code throws a [system_error] carrying [rc].  No other answer leads to
    any of the three results.  [wait_for] and [wait_until] finish with this
    same step, at the deadline they computed, and return what it returns. *)
Theorem timed_wait_maps_return_code (lock : unique_lock) (m : native_mutex)
  (ts : timespec) (w : W) :
  mutex lock = Some m -> owns_lock lock = true -> ETIMEDOUT env <> 0 ->
  let rc := fst (pthread_cond_timedwait env m ts w) in
  let r := CondVar.wait_until_ env lock ts w in
  calls_of r = [Call_owns_lock true; Call_cond_timedwait m ts rc] /\
  (rc = 0 <-> outcome_of r = Returned no_timeout) /\
  (rc = ETIMEDOUT env <-> outcome_of r = Returned timeout) /\
  (rc <> 0 /\ rc <> ETIMEDOUT env <->
   outcome_of r = Thrown (CondVar.generic_error rc)) /\
  (forall e, outcome_of r = Thrown e ->
     e = CondVar.generic_error rc /\ code e = rc) /\
  (forall d w0, exists ts' w',
     outcome_of (CondVar.to_abs_time_ env d w0) = Returned ts' /\
     world_of (CondVar.to_abs_time_ env d w0) = w' /\
     outcome_of (CondVar.wait_for env lock d w0) =
       outcome_of (CondVar.wait_until_ env lock ts' w')) /\
  (forall abs_time w0, exists now ts' w',
     now = fst (Clock_now env w0) /\
     outcome_of (CondVar.to_abs_time_ env
                   (Chrono.time_point_minus abs_time now)
                   (snd (Clock_now env w0))) = Returned ts' /\
     world_of (CondVar.to_abs_time_ env
                 (Chrono.time_point_minus abs_time now)
                 (snd (Clock_now env w0))) = w' /\
     outcome_of (CondVar.wait_until env lock abs_time w0) =
       outcome_of (CondVar.wait_until_ env lock ts' w')).
Proof.
  intros M H T rc r.
  assert (F : forall d w0, exists ts' w',
     outcome_of (CondVar.to_abs_time_ env d w0) = Returned ts' /\
     world_of (CondVar.to_abs_time_ env d w0) = w' /\
     outcome_of (CondVar.wait_for env lock d w0) =
       outcome_of (CondVar.wait_until_ env lock ts' w')).
  { intros d w0. destruct (wait_for_ends_in_wait_until_ lock d w0)
      as (ts' & w' & t & E & O & _).
    exists ts', w'. rewrite E. repeat split. exact O. }
  assert (U : forall abs_time w0, exists now ts' w',
     now = fst (Clock_now env w0) /\
     outcome_of (CondVar.to_abs_time_ env
                   (Chrono.time_point_minus abs_time now)
                   (snd (Clock_now env w0))) = Returned ts' /\
     world_of (CondVar.to_abs_time_ env
                 (Chrono.time_point_minus abs_time now)
                 (snd (Clock_now env w0))) = w' /\
     outcome_of (CondVar.wait_until env lock abs_time w0) =
       outcome_of (CondVar.wait_until_ env lock ts' w')).
  { intros a w0. destruct (wait_until_ends_in_wait_until_ lock a w0)
      as (now & w0' & ts' & w' & t & N & E & O & _).
    exists now, ts', w'. rewrite N; cbn. rewrite E. repeat split. exact O. }
  subst r rc.
  rewrite (wait_until__held lock m ts w M H).
  destruct (pthread_cond_timedwait env m ts w) as [rc w1]; cbn.
  split; [reflexivity |].
  destruct (Z.eqb_spec rc 0) as [-> | N0];
    [| destruct (Z.eqb_spec rc (ETIMEDOUT env)) as [-> | NT]];
    (split; [| split; [| split; [| split; [| split; [exact F | exact U]]]]]).
  all: try (split; intros; try reflexivity; try discriminate; try tauto;
            try congruence).
  all: try (intros e E; inversion E; split; reflexivity).
  all: try match goal with
         | E : _ /\ _ |- _ => destruct E; congruence
         | E : 0 = ETIMEDOUT env |- _ => symmetry in E; contradiction
         end.
  match goal with E : Thrown _ = Thrown e |- _ => now inversion E end.
Qed.

End Waits.

(** ** Predicate waits *)

Section PredicateWait.

Context {W : Type} (env : Env W).

(** One iteration of [while(!pred()) wait(lock);]. *)
Lemma wait_pred_step (fuel : nat) (lock : unique_lock)
  (pred : W -> bool * W) (w : W) :
  CondVar.wait_pred env (S fuel) lock pred w =
  let '(b, w1) := pred w in
  if b then (Returned tt, w1, [Call_pred true])
  else
    match CondVar.wait env lock w1 with
    | (Returned _, w2, t) =>
        let '(o, w3, t3) := CondVar.wait_pred env fuel lock pred w2 in
        (o, w3, Call_pred false :: t ++ t3)
    | (Thrown e, w2, t) => (Thrown e, w2, Call_pred false :: t)
    | (Undefined u, w2, t) => (Undefined u, w2, Call_pred false :: t)
    | (Out_of_fuel, w2, t) => (Out_of_fuel, w2, Call_pred false :: t)
    end.
Proof.
  cbn [CondVar.wait_pred]. unfold bind at 1. unfold call.
  destruct (pred w) as [b w1]. destruct b; cbn [negb].
  - reflexivity.
  - unfold bind.
    destruct (CondVar.wait env lock w1) as [[[a | e | u |] w2] t];
      try reflexivity.
    destruct (CondVar.wait_pred env fuel lock pred w2) as [[o w3] t3].
    reflexivity.
Qed.

(** What [wait(lock)] can do, by the state of the lock. *)
Lemma wait_cases (lock : unique_lock) (w : W) :
  (owns_lock lock = false /\
   CondVar.wait env lock w =
     (Thrown (CondVar.mutex_not_locked env), w, [Call_owns_lock false])) \/
  (owns_lock lock = true /\ mutex lock = None /\
   CondVar.wait env lock w =
     (Undefined Null_mutex_dereference, w, [Call_owns_lock true])) \/
  (exists m rc w1, held_on lock m /\ pthread_cond_wait env m w = (rc, w1) /\
     CondVar.wait env lock w =
       (if rc =? 0 then Returned tt else Thrown (CondVar.generic_error rc),
        w1, [Call_owns_lock true; Call_cond_wait m rc])).
Proof.
  destruct (owns_lock lock) eqn:H.
  - destruct (mutex lock) as [m |] eqn:Mx.
    + right; right.
      destruct (pthread_cond_wait env m w) as [rc w1] eqn:E.
      exists m, rc, w1. split; [split; assumption |]. split; [exact E |].
      rewrite (wait_held env lock m w H Mx), E. reflexivity.
    + right; left. split; [reflexivity |]. split; [reflexivity |].
      unfold CondVar.wait, CondVar.query_owns_lock,
        CondVar.mutex_native_handle, bind.
      rewrite H, Mx. reflexivity.
  - left. split; [reflexivity |]. now apply wait_not_held.
Qed.

Lemma woken_until_true_last (lock : unique_lock) (t : list event) :
  woken_until_true lock t -> exists before, t = before ++ [Call_pred true].
Proof.
  induction 1 as [| m t Hm _ [before ->]].
  - exists []; reflexivity.
  - eexists (_ :: _ :: _ :: before); reflexivity.
Qed.

Lemma wait_pred_returned (fuel : nat) (lock : unique_lock)
  (pred : W -> bool * W) :
  forall w,
    outcome_of (CondVar.wait_pred env fuel lock pred w) = Returned tt ->
    woken_until_true lock (calls_of (CondVar.wait_pred env fuel lock pred w))
    /\ exists w_last,
         pred w_last =
           (true, world_of (CondVar.wait_pred env fuel lock pred w)).
Proof.
  induction fuel as [| fuel IH]; intros w.
  - cbn. discriminate.
  - rewrite wait_pred_step.
    destruct (pred w) as [b w1] eqn:P. destruct b.
    + intros _. split; [constructor |]. exists w; exact P.
    + destruct (wait_cases lock w1)
        as [(_ & E) | [(_ & _ & E) | (m & rc & w2 & Hm & _ & E)]];
        rewrite E; try (cbn; discriminate).
      destruct (Z.eqb_spec rc 0) as [-> | N]; [| cbn; discriminate].
      specialize (IH w2).
      destruct (CondVar.wait_pred env fuel lock pred w2) as [[o w3] t3].
      cbn in *. intros O. destruct (IH O) as [S L].
      split; [| exact L]. now apply wut_round.
Qed.

(** A run of [wait(lock, pred)] that has used up its fuel has been woken
    up, with the predicate still false each time, as many times as it had
    fuel. *)
Lemma wait_pred_out_of_fuel (fuel : nat) (lock : unique_lock)
  (pred : W -> bool * W) :
  forall w,
    outcome_of (CondVar.wait_pred env fuel lock pred w) = Out_of_fuel ->
    (fuel = O /\
     calls_of (CondVar.wait_pred env fuel lock pred w) = []) \/
    (exists m, held_on lock m /\
       calls_of (CondVar.wait_pred env fuel lock pred w) =
         false_rounds (Call_cond_wait m 0) fuel).
Proof.
  induction fuel as [| fuel IH]; intros w.
  - intros _. now left.
  - rewrite wait_pred_step.
    destruct (pred w) as [b w1] eqn:P. destruct b; [cbn; discriminate |].
    destruct (wait_cases lock w1)
      as [(_ & E) | [(_ & _ & E) | (m & rc & w2 & Hm & _ & E)]];
      rewrite E; try (cbn; discriminate).
    destruct (Z.eqb_spec rc 0) as [-> | N]; [| cbn; discriminate].
    specialize (IH w2).
    destruct (CondVar.wait_pred env fuel lock pred w2) as [[o w3] t3].
    cbn in *. intros O. right. exists m. split; [exact Hm |].
    destruct (IH O) as [[-> ->] | (m' & Hm' & ->)].
    + reflexivity.
    + destruct Hm as [A _], Hm' as [B _].
      assert (m' = m) by congruence. subst m'. reflexivity.
Qed.

(** More fuel does not change a run that ended. *)
Lemma wait_pred_fuel_mono (fuel : nat) (lock : unique_lock)
  (pred : W -> bool * W) :
  forall w (extra : nat),
    outcome_of (CondVar.wait_pred env fuel lock pred w) <> Out_of_fuel ->
    CondVar.wait_pred env (fuel + extra) lock pred w =
    CondVar.wait_pred env fuel lock pred w.
Proof.
  induction fuel as [| fuel IH]; intros w extra.
  - cbn. congruence.
  - replace (S fuel + extra)%nat with (S (fuel + extra)) by reflexivity.
    rewrite !wait_pred_step.
    destruct (pred w) as [b w1]. destruct b; [reflexivity |].
    destruct (CondVar.wait env lock w1) as [[[a | e | u |] w2] t];
      try reflexivity.
    specialize (IH w2 extra).
    destruct (CondVar.wait_pred env fuel lock pred w2) as [[o w3] t3].
    cbn in *. intros O. rewrite (IH O). reflexivity.
Qed.

(** C6.  When [wait(lock, pred)] returns, its calls are rounds of
    "predicate false, [wait(lock)] woken up" followed by one last
    evaluation of the predicate, which answered [true]: every wake-up is
    followed by a fresh evaluation, the last call before the return is an
    evaluation that is true, and nothing happens in the environment between
    that evaluation and the return.  The result does not depend on the fuel
    the run was given beyond what it used; and a run that is still waiting
    when its fuel is used up has been woken up, with the predicate false
    each time, as many times as it had fuel. *)
Theorem wait_pred_returns_only_after_true_pred (fuel : nat)
  (lock : unique_lock) (pred : W -> bool * W) (w : W) :
  let r := CondVar.wait_pred env fuel lock pred w in
  (outcome_of r = Returned tt ->
   woken_until_true lock (calls_of r) /\
   (exists before, calls_of r = before ++ [Call_pred true]) /\
   (exists w_last, pred w_last = (true, world_of r)) /\
   (forall extra, CondVar.wait_pred env (fuel + extra) lock pred w = r)) /\
  (outcome_of r = Out_of_fuel ->
   (fuel = O /\ calls_of r = []) \/
   (exists m, held_on lock m /\
      calls_of r = false_rounds (Call_cond_wait m 0) fuel)).
Proof.
  intros r. subst r. split.
  - intros O.
    destruct (wait_pred_returned fuel lock pred w O) as [S L].
    split; [exact S |].
    split; [exact (woken_until_true_last lock _ S) |].
    split; [exact L |].
    intros extra. apply wait_pred_fuel_mono. rewrite O. discriminate.
  - apply wait_pred_out_of_fuel.
Qed.

End PredicateWait.

(** ** Timed predicate waits *)

Section TimedPredicateWait.

Context {W : Type} (env : Env W).

(** What [wait_until_(lock, ts)] can do, by the state of the lock. *)
Lemma wait_until__cases (lock : unique_lock) (ts : timespec) (w : W) :
  (mutex lock = None /\
   CondVar.wait_until_ env lock ts w =
     (Undefined Null_mutex_dereference, w, [])) \/
  (owns_lock lock = false /\
   CondVar.wait_until_ env lock ts w =
     (Thrown (CondVar.mutex_not_locked env), w, [Call_owns_lock false])) \/
  (exists m rc w1,
     held_on lock m /\ pthread_cond_timedwait env m ts w = (rc, w1) /\
     CondVar.wait_until_ env lock ts w =
       (if rc =? 0 then Returned no_timeout
        else if rc =? ETIMEDOUT env then Returned timeout
        else Thrown (CondVar.generic_error rc),
        w1, [Call_owns_lock true; Call_cond_timedwait m ts rc])).
Proof.
  destruct (mutex lock) as [m |] eqn:Mx.
  - destruct (owns_lock lock) eqn:H.
    + right; right.
      destruct (pthread_cond_timedwait env m ts w) as [rc w1] eqn:E.
      exists m, rc, w1. split; [split; assumption |]. split; [exact E |].
      rewrite (wait_until__held env lock m ts w Mx H), E. reflexivity.
    + right; left. split; [reflexivity |].
      now apply (wait_until__not_held env lock m).
  - left. split; [reflexivity |]. now apply wait_until__no_mutex.
Qed.

(** One iteration of the loop of [wait_for(lock, rel_time, pred)]. *)
Lemma wait_for_loop_step (fuel : nat) (lock : unique_lock) (ts : timespec)
  (pred : W -> bool * W) (w : W) :
  CondVar.wait_for_loop env (S fuel) lock ts pred w =
  let '(b, w1) := pred w in
  if b then (Returned true, w1, [Call_pred true])
  else
    match CondVar.wait_until_ env lock ts w1 with
    | (Returned no_timeout, w2, t) =>
        let '(o, w3, t3) := CondVar.wait_for_loop env fuel lock ts pred w2 in
        (o, w3, Call_pred false :: t ++ t3)
    | (Returned timeout, w2, t) =>
        let '(b', w3) := pred w2 in
        (Returned b', w3, Call_pred false :: t ++ [Call_pred b'])
    | (Thrown e, w2, t) => (Thrown e, w2, Call_pred false :: t)
    | (Undefined u, w2, t) => (Undefined u, w2, Call_pred false :: t)
    | (Out_of_fuel, w2, t) => (Out_of_fuel, w2, Call_pred false :: t)
    end.
Proof.
  cbn [CondVar.wait_for_loop]. unfold bind at 1. unfold call at 1.
  destruct (pred w) as [b w1]. destruct b; cbn [negb].
  - reflexivity.
  - unfold bind.
    destruct (CondVar.wait_until_ env lock ts w1)
      as [[[[|] | e | u |] w2] t]; try reflexivity.
    + destruct (CondVar.wait_for_loop env fuel lock ts pred w2)
        as [[o w3] t3]. reflexivity.
    + unfold call. destruct (pred w2) as [b' w3]. reflexivity.
Qed.

(** The loop is written twice in the source; the two copies agree. *)
Lemma wait_until_loop_is_wait_for_loop (fuel : nat) (lock : unique_lock)
  (ts : timespec) (pred : W -> bool * W) :
  forall w,
    CondVar.wait_until_loop env fuel lock ts pred w =
    CondVar.wait_for_loop env fuel lock ts pred w.
Proof.
  induction fuel as [| fuel IH]; intros w; [reflexivity |].
  cbn [CondVar.wait_until_loop CondVar.wait_for_loop].
  unfold bind at 1 3. unfold call.
  destruct (pred w) as [b w1].
  destruct b; cbn [negb]; [reflexivity |].
  unfold bind.
  destruct (CondVar.wait_until_ env lock ts w1)
    as [[[[|] | e | u |] w2] t]; try reflexivity.
Qed.

Lemma wait_for_loop_returned (fuel : nat) (lock : unique_lock)
  (ts : timespec) (pred : W -> bool * W) :
  forall w b,
    outcome_of (CondVar.wait_for_loop env fuel lock ts pred w) = Returned b ->
    timed_rounds lock ts (ETIMEDOUT env)
      (calls_of (CondVar.wait_for_loop env fuel lock ts pred w)) b /\
    exists w_last,
      pred w_last =
        (b, world_of (CondVar.wait_for_loop env fuel lock ts pred w)).
Proof.
  induction fuel as [| fuel IH]; intros w b.
  - cbn. discriminate.
  - rewrite wait_for_loop_step.
    destruct (pred w) as [b0 w1] eqn:P. destruct b0.
    + cbn. intros E; inversion E; subst b.
      split; [constructor |]. exists w; exact P.
    + destruct (wait_until__cases lock ts w1)
        as [(_ & E) | [(_ & E) | (m & rc & w2 & Hm & _ & E)]];
        rewrite E; try (cbn; discriminate).
      destruct (Z.eqb_spec rc 0) as [-> | N].
      * specialize (IH w2 b).
        destruct (CondVar.wait_for_loop env fuel lock ts pred w2)
          as [[o w3] t3].
        cbn in *. intros O. destruct (IH O) as [S L].
        split; [| exact L]. now apply tr_round.
      * destruct (Z.eqb_spec rc (ETIMEDOUT env)) as [-> | NT];
          [| cbn; discriminate].
        destruct (pred w2) as [b' w3] eqn:P2. cbn.
        intros O; inversion O; subst b'.
        split; [now apply tr_timeout |]. exists w2; exact P2.
Qed.

Lemma timed_rounds_last (lock : unique_lock) (ts : timespec) (et : Z)
  (t : list event) (b : bool) :
  timed_rounds lock ts et t b -> exists before, t = before ++ [Call_pred b].
Proof.
  induction 1 as [| m b Hm | m t b Hm _ [before ->]].
  - exists []; reflexivity.
  - eexists [_; _; _]; reflexivity.
  - eexists (_ :: _ :: _ :: before); reflexivity.
Qed.

Lemma timed_rounds_true_before_timeout (lock : unique_lock)
  (ts : timespec) (et : Z) (t : list event) (b : bool) :
  timed_rounds lock ts et t b ->
  true_before_timeout et t = true -> b = true.
Proof.
  induction 1 as [| m b Hm | m t b Hm _ IH]; cbn -[Z.eqb].
  - reflexivity.
  - rewrite Z.eqb_refl. discriminate.
  - destruct (0 =? et); [discriminate | exact IH].
Qed.

Lemma timed_rounds_timeout_last (lock : unique_lock)
  (ts : timespec) (et : Z) (t : list event) (b : bool) :
  et <> 0 ->
  timed_rounds lock ts et t b ->
  true_before_timeout et t = false ->
  exists m before,
    t = before ++ [Call_cond_timedwait m ts et; Call_pred b].
Proof.
  intros N. induction 1 as [| m b Hm | m t b Hm _ IH]; cbn -[Z.eqb].
  - discriminate.
  - intros _. exists m. eexists [_; _]. reflexivity.
  - destruct (Z.eqb_spec 0 et) as [E | _]; [congruence |].
    intros F. destruct (IH F) as (m' & before & ->).
    exists m'. eexists (_ :: _ :: _ :: before). reflexivity.
Qed.

(** Whatever the outcome, the loop hands the one deadline it was given to
    every timed wait, and does not read the clock. *)
Lemma wait_for_loop_keeps_deadline (fuel : nat) (lock : unique_lock)
  (ts : timespec) (pred : W -> bool * W) :
  forall w,
    all_timedwaits_at ts
      (calls_of (CondVar.wait_for_loop env fuel lock ts pred w)) /\
    never_reads_clock
      (calls_of (CondVar.wait_for_loop env fuel lock ts pred w)).
Proof.
  unfold all_timedwaits_at, never_reads_clock.
  induction fuel as [| fuel IH]; intros w.
  - cbn. split; [intros ? ? ? [] | reflexivity].
  - rewrite wait_for_loop_step.
    destruct (pred w) as [b0 w1]. destruct b0.
    + cbn. split; [| reflexivity].
      intros m ts' rc [I | []]; discriminate.
    + destruct (wait_until__cases lock ts w1)
        as [(_ & E) | [(_ & E) | (m & rc & w2 & Hm & _ & E)]]; rewrite E.
      * cbn. split; [| reflexivity].
        intros m ts' rc [I | []]; discriminate.
      * cbn. split; [| reflexivity].
        intros m ts' rc [I | [I | []]]; discriminate.
      * assert (A : forall t3,
                  (forall m0 ts' rc0,
                     In (Call_cond_timedwait m0 ts' rc0) t3 -> ts' = ts) ->
                  existsb is_clock_gettime t3 = false ->
                  (forall m0 ts' rc0,
                     In (Call_cond_timedwait m0 ts' rc0)
                        (Call_pred false :: Call_owns_lock true ::
                         Call_cond_timedwait m ts rc :: t3) ->
                     ts' = ts) /\
                  existsb is_clock_gettime
                    (Call_pred false :: Call_owns_lock true ::
                     Call_cond_timedwait m ts rc :: t3) = false).
        { intros t3 A B. split; [| exact B].
          intros m0 ts' rc0 [I | [I | [I | I]]]; try discriminate.
          - now inversion I.
          - exact (A _ _ _ I). }
        destruct (rc =? 0).
        -- specialize (IH w2).
           destruct (CondVar.wait_for_loop env fuel lock ts pred w2)
             as [[o w3] t3].
           cbn [calls_of snd] in *. destruct IH as [A1 A2].
           exact (A t3 A1 A2).
        -- destruct (rc =? ETIMEDOUT env).
           ++ destruct (pred w2) as [b' w3]. cbn [calls_of snd].
              apply (A [Call_pred b']); [| reflexivity].
              intros m0 ts' rc0 [I | []]; discriminate.
           ++ cbn [calls_of snd].
              apply (A []); [| reflexivity].
              intros ? ? ? [].
Qed.

(** A run of the loop that has used up its fuel has been woken up before
    the deadline, with the predicate still false each time, as many times
    as it had fuel. *)
Lemma wait_for_loop_out_of_fuel (fuel : nat) (lock : unique_lock)
  (ts : timespec) (pred : W -> bool * W) :
  forall w,
    outcome_of (CondVar.wait_for_loop env fuel lock ts pred w) = Out_of_fuel ->
    (fuel = O /\
     calls_of (CondVar.wait_for_loop env fuel lock ts pred w) = []) \/
    (exists m, held_on lock m /\
       calls_of (CondVar.wait_for_loop env fuel lock ts pred w) =
         false_rounds (Call_cond_timedwait m ts 0) fuel).
Proof.
  induction fuel as [| fuel IH]; intros w.
  - intros _. now left.
  - rewrite wait_for_loop_step.
    destruct (pred w) as [b w1] eqn:P. destruct b; [cbn; discriminate |].
    destruct (wait_until__cases lock ts w1)
      as [(_ & E) | [(_ & E) | (m & rc & w2 & Hm & _ & E)]];
      rewrite E; try (cbn; discriminate).
    destruct (Z.eqb_spec rc 0) as [-> | N].
    + specialize (IH w2).
      destruct (CondVar.wait_for_loop env fuel lock ts pred w2)
        as [[o w3] t3].
      cbn in *. intros O. right. exists m. split; [exact Hm |].
      destruct (IH O) as [[-> ->] | (m' & Hm' & ->)].
      * reflexivity.
      * destruct Hm as [A _], Hm' as [B _].
        assert (m' = m) by congruence. subst m'. reflexivity.
    + destruct (rc =? ETIMEDOUT env); [| cbn; discriminate].
      destruct (pred w2) as [b' w3]. cbn. discriminate.
Qed.

(** More fuel does not change a run that ended. *)
Lemma wait_for_loop_fuel_mono (fuel : nat) (lock : unique_lock)
  (ts : timespec) (pred : W -> bool * W) :
  forall w (extra : nat),
    outcome_of (CondVar.wait_for_loop env fuel lock ts pred w)
      <> Out_of_fuel ->
    CondVar.wait_for_loop env (fuel + extra) lock ts pred w =
    CondVar.wait_for_loop env fuel lock ts pred w.
Proof.
  induction fuel as [| fuel IH]; intros w extra.
  - cbn. congruence.
  - replace (S fuel + extra)%nat with (S (fuel + extra)) by reflexivity.
    rewrite !wait_for_loop_step.
    destruct (pred w) as [b w1]. destruct b; [reflexivity |].
    destruct (CondVar.wait_until_ env lock ts w1)
      as [[[[|] | e | u |] w2] t]; try reflexivity.
    specialize (IH w2 extra).
    destruct (CondVar.wait_for_loop env fuel lock ts pred w2)
      as [[o w3] t3].
    cbn in *. intros O. rewrite (IH O). reflexivity.
Qed.

(** [wait_for(lock, rel_time, pred)] is the deadline computation followed
    by the loop at that deadline. *)
Lemma wait_for_pred_split (fuel : nat) (lock : unique_lock)
  (d : Chrono.duration) (pred : W -> bool * W) (w : W) :
  exists ts w1 pre,
    CondVar.to_abs_time_ env d w = (Returned ts, w1, pre) /\
    (pre = [] \/ exists now, pre = [Call_clock_gettime now]) /\
    outcome_of (CondVar.wait_for_pred env fuel lock d pred w) =
      outcome_of (CondVar.wait_for_loop env fuel lock ts pred w1) /\
    world_of (CondVar.wait_for_pred env fuel lock d pred w) =
      world_of (CondVar.wait_for_loop env fuel lock ts pred w1) /\
    calls_of (CondVar.wait_for_pred env fuel lock d pred w) =
      pre ++ calls_of (CondVar.wait_for_loop env fuel lock ts pred w1).
Proof.
  destruct (to_abs_time__returns env d w) as (ts & w1 & pre & E & S).
  exists ts, w1, pre. split; [exact E |]. split; [exact S |].
  unfold CondVar.wait_for_pred, bind. rewrite E.
  destruct (CondVar.wait_for_loop env fuel lock ts pred w1) as [[o w2] t].
  repeat split.
Qed.

(** [wait_until(lock, abs_time, pred)] is the reading of the caller's
    clock, the deadline computation and the loop at that deadline. *)
Lemma wait_until_pred_split (fuel : nat) (lock : unique_lock)
  (abs_time : Chrono.time_point) (pred : W -> bool * W) (w : W) :
  exists now w0 ts w1 pre,
    Clock_now env w = (now, w0) /\
    CondVar.to_abs_time_ env (Chrono.time_point_minus abs_time now) w0 =
      (Returned ts, w1, pre) /\
    (pre = [] \/ exists mono, pre = [Call_clock_gettime mono]) /\
    outcome_of (CondVar.wait_until_pred env fuel lock abs_time pred w) =
      outcome_of (CondVar.wait_for_loop env fuel lock ts pred w1) /\
    world_of (CondVar.wait_until_pred env fuel lock abs_time pred w) =
      world_of (CondVar.wait_for_loop env fuel lock ts pred w1) /\
    calls_of (CondVar.wait_until_pred env fuel lock abs_time pred w) =
      Call_Clock_now now :: pre ++
      calls_of (CondVar.wait_for_loop env fuel lock ts pred w1).
Proof.
  destruct (Clock_now env w) as [now w0] eqn:N.
  destruct (to_abs_time__returns env
              (Chrono.time_point_minus abs_time now) w0)
    as (ts & w1 & pre & E & S).
  exists now, w0, ts, w1, pre.
  split; [reflexivity |]. split; [exact E |]. split; [exact S |].
  unfold CondVar.wait_until_pred, bind, call. rewrite N, E.
  rewrite wait_until_loop_is_wait_for_loop.
  destruct (CondVar.wait_for_loop env fuel lock ts pred w1) as [[o w2] t].
  repeat split.
Qed.

Lemma true_before_timeout_after_clock (et : Z) (pre t : list event) :
  (pre = [] \/ exists now, pre = [Call_clock_gettime now]) ->
  true_before_timeout et (pre ++ t) = true_before_timeout et t.
Proof. intros [-> | [now ->]]; reflexivity. Qed.

(** C3, as the code has it.  When [wait_for(lock, rel_time, pred)] returns
    [b], its calls are the deadline computation, rounds of "predicate
    false, woken up before the deadline", and an ending that is either an
    evaluation of the predicate that is true, or a timed wait that reports
    the timeout followed by one more evaluation of the predicate.  In both
    endings [b] is the answer of that last evaluation, made with nothing
    in between it and the return.  So the result is [true] whenever the
    predicate was seen true before a timeout was reported; and when the
    timeout was reported first, the result is whatever the predicate
    answers right after it, [true] included.  The result does not depend
    on the fuel beyond what the run used; and a run that is still waiting
    when its fuel is used up has been woken up before the deadline, with
    the predicate false each time, as many times as it had fuel. *)
Theorem wait_for_pred_returns_last_pred (fuel : nat) (lock : unique_lock)
  (d : Chrono.duration) (pred : W -> bool * W) (w : W) :
  ETIMEDOUT env <> 0 ->
  let r := CondVar.wait_for_pred env fuel lock d pred w in
  (forall b, outcome_of r = Returned b ->
     (exists ts w1 pre rounds,
        CondVar.to_abs_time_ env d w = (Returned ts, w1, pre) /\
        calls_of r = pre ++ rounds /\
        timed_rounds lock ts (ETIMEDOUT env) rounds b /\
        (true_before_timeout (ETIMEDOUT env) (calls_of r) = false ->
         exists m before,
           calls_of r = before ++
             [Call_cond_timedwait m ts (ETIMEDOUT env); Call_pred b])) /\
     (exists before, calls_of r = before ++ [Call_pred b]) /\
     (exists w_last, pred w_last = (b, world_of r)) /\
     (true_before_timeout (ETIMEDOUT env) (calls_of r) = true -> b = true) /\
     (forall extra,
        CondVar.wait_for_pred env (fuel + extra) lock d pred w = r)) /\
  (outcome_of r = Out_of_fuel ->
   exists ts w1 pre,
     CondVar.to_abs_time_ env d w = (Returned ts, w1, pre) /\
     ((fuel = O /\ calls_of r = pre) \/
      (exists m, held_on lock m /\
         calls_of r = pre ++ false_rounds (Call_cond_timedwait m ts 0) fuel))).
Proof.
  intros T r. subst r.
  destruct (wait_for_pred_split fuel lock d pred w)
    as (ts & w1 & pre & E & S & Eo & Ew & Ec).
  split.
  - intros b O. rewrite Eo in O.
    destruct (wait_for_loop_returned fuel lock ts pred w1 b O) as [R L].
    rewrite Ec, Ew, (true_before_timeout_after_clock _ _ _ S).
    split; [| split; [| split; [| split]]].
    + exists ts, w1, pre,
        (calls_of (CondVar.wait_for_loop env fuel lock ts pred w1)).
      repeat split; try assumption.
      intros F.
      destruct (timed_rounds_timeout_last lock ts _ _ b T R F)
        as (m & before & ->).
      exists m, (pre ++ before). now rewrite <- app_assoc.
    + destruct (timed_rounds_last lock ts _ _ b R) as [before ->].
      exists (pre ++ before). now rewrite <- app_assoc.
    + exact L.
    + exact (timed_rounds_true_before_timeout lock ts _ _ b R).
    + intros extra. unfold CondVar.wait_for_pred, bind. rewrite E.
      rewrite wait_for_loop_fuel_mono; [reflexivity |].
      rewrite O. discriminate.
  - intros O. rewrite Eo in O. exists ts, w1, pre. split; [exact E |].
    rewrite Ec.
    destruct (wait_for_loop_out_of_fuel fuel lock ts pred w1 O)
      as [[F0 C0] | (m & Hm & C)].
    + left. rewrite C0, app_nil_r. split; [exact F0 | reflexivity].
    + right. exists m. rewrite C. split; [exact Hm | reflexivity].
Qed.

(** C9.  In [wait_for(lock, rel_time, pred)] and in
    [wait_until(lock, abs_time, pred)] the deadline is computed before the
    loop: the calls of the run are those of the one deadline computation
    (a single reading of the monotonic clock, or none for a duration that
    is not positive), then those of the loop, in which the clock is not
    read again and every [pthread_cond_timedwait] is handed that same
    deadline.  This holds for every run, however it ends. *)
Theorem predicate_timed_waits_keep_one_deadline (fuel : nat)
  (lock : unique_lock) (pred : W -> bool * W) (w : W) :
  (forall d, exists ts w1 pre rest,
     CondVar.to_abs_time_ env d w = (Returned ts, w1, pre) /\
     (pre = [] \/ exists mono, pre = [Call_clock_gettime mono]) /\
     calls_of (CondVar.wait_for_pred env fuel lock d pred w) = pre ++ rest /\
     never_reads_clock rest /\
     all_timedwaits_at ts
       (calls_of (CondVar.wait_for_pred env fuel lock d pred w))) /\
  (forall abs_time, exists now w0 ts w1 pre rest,
     Clock_now env w = (now, w0) /\
     CondVar.to_abs_time_ env (Chrono.time_point_minus abs_time now) w0 =
       (Returned ts, w1, pre) /\
     (pre = [] \/ exists mono, pre = [Call_clock_gettime mono]) /\
     calls_of (CondVar.wait_until_pred env fuel lock abs_time pred w) =
       Call_Clock_now now :: pre ++ rest /\
     never_reads_clock rest /\
     all_timedwaits_at ts
       (calls_of (CondVar.wait_until_pred env fuel lock abs_time pred w))).
Proof.
  split.
  - intros d.
    destruct (wait_for_pred_split fuel lock d pred w)
      as (ts & w1 & pre & E & S & _ & _ & Ec).
    destruct (wait_for_loop_keeps_deadline fuel lock ts pred w1) as [A C].
    exists ts, w1, pre,
      (calls_of (CondVar.wait_for_loop env fuel lock ts pred w1)).
    repeat split; try assumption.
    rewrite Ec. intros m ts' rc I. apply in_app_or in I.
    destruct I as [I | I]; [| exact (A _ _ _ I)].
    destruct S as [-> | [mono ->]]; [destruct I |].
    destruct I as [I | []]; discriminate.
  - intros abs_time.
    destruct (wait_until_pred_split fuel lock abs_time pred w)
      as (now & w0 & ts & w1 & pre & N & E & S & _ & _ & Ec).
    destruct (wait_for_loop_keeps_deadline fuel lock ts pred w1) as [A C].
    exists now, w0, ts, w1, pre,
      (calls_of (CondVar.wait_for_loop env fuel lock ts pred w1)).
    repeat split; try assumption.
    rewrite Ec. intros m ts' rc [I | I]; [discriminate |].
    apply in_app_or in I.
    destruct I as [I | I]; [| exact (A _ _ _ I)].
    destruct S as [-> | [mono ->]]; [destruct I |].
    destruct I as [I | []]; discriminate.
Qed.

End TimedPredicateWait.

(** ** The lock check, and the waits that never reach it *)

Section LockCheck.

Context {W : Type} (env : Env W).

Lemma wait_for_loop_true_at_once (fuel : nat) (lock : unique_lock)
  (ts : timespec) (pred : W -> bool * W) (w : W) :
  fst (pred w) = true ->
  CondVar.wait_for_loop env (S fuel) lock ts pred w =
  (Returned true, snd (pred w), [Call_pred true]).
Proof.
  intros P. rewrite wait_for_loop_step.
  destruct (pred w) as [b w1]. cbn in P. subst b. reflexivity.
Qed.

Lemma wait_for_loop_not_held (fuel : nat) (lock : unique_lock)
  (m : native_mutex) (ts : timespec) (pred : W -> bool * W) (w : W) :
  mutex lock = Some m -> owns_lock lock = false ->
  fst (pred w) = false ->
  CondVar.wait_for_loop env (S fuel) lock ts pred w =
  (Thrown (CondVar.mutex_not_locked env), snd (pred w),
   [Call_pred false; Call_owns_lock false]).
Proof.
  intros M H P. rewrite wait_for_loop_step.
  destruct (pred w) as [b w1]. cbn in P. subst b. cbn [snd].
  rewrite (wait_until__not_held env lock m ts w1 M H). reflexivity.
Qed.

(** C10.  Let the first evaluation of the predicate, in the state [w] in
    which it takes place, answer [true].  Then, whatever the lock,
    [wait(lock, pred)] returns and the timed predicate waits return
    [true], with that evaluation as their only call after the deadline
    computation: [lock.owns_lock()] is not evaluated and neither
    [pthread_cond_wait] nor [pthread_cond_timedwait] is called. *)
Theorem true_predicate_skips_the_wait (fuel : nat) (lock : unique_lock)
  (pred : W -> bool * W) (w : W) :
  fst (pred w) = true ->
  (let r := CondVar.wait_pred env (S fuel) lock pred w in
   outcome_of r = Returned tt /\
   calls_of r = [Call_pred true] /\
   never_blocks (calls_of r) /\ never_checks_ownership (calls_of r)) /\
  (forall d w0,
     world_of (CondVar.to_abs_time_ env d w0) = w ->
     let r := CondVar.wait_for_pred env (S fuel) lock d pred w0 in
     outcome_of r = Returned true /\
     calls_of r = calls_of (CondVar.to_abs_time_ env d w0) ++ [Call_pred true] /\
     never_blocks (calls_of r) /\ never_checks_ownership (calls_of r)) /\
  (forall abs_time w0,
     world_of (CondVar.to_abs_time_ env
                 (Chrono.time_point_minus abs_time (fst (Clock_now env w0)))
                 (snd (Clock_now env w0))) = w ->
     let r := CondVar.wait_until_pred env (S fuel) lock abs_time pred w0 in
     outcome_of r = Returned true /\
     calls_of r =
       Call_Clock_now (fst (Clock_now env w0)) ::
       calls_of (CondVar.to_abs_time_ env
                   (Chrono.time_point_minus abs_time (fst (Clock_now env w0)))
                   (snd (Clock_now env w0))) ++ [Call_pred true] /\
     never_blocks (calls_of r) /\ never_checks_ownership (calls_of r)).
Proof.
  intros P.
  assert (Q : forall pre : list event,
            (pre = [] \/ exists mono, pre = [Call_clock_gettime mono]) ->
            never_blocks (pre ++ [Call_pred true]) /\
            never_checks_ownership (pre ++ [Call_pred true])).
  { intros pre [-> | [mono ->]]; split; reflexivity. }
  split; [| split].
  - cbn zeta. rewrite wait_pred_step.
    destruct (pred w) as [b w1]. cbn in P. subst b.
    repeat split.
  - intros d w0 Hw r. subst r.
    destruct (wait_for_pred_split env (S fuel) lock d pred w0)
      as (ts & w1 & pre & E & S & Eo & _ & Ec).
    rewrite E in Hw. cbn in Hw. subst w1.
    rewrite Eo, Ec, E, (wait_for_loop_true_at_once fuel lock ts pred w P).
    cbn [outcome_of calls_of fst snd].
    split; [reflexivity |]. split; [reflexivity |]. exact (Q pre S).
  - intros abs_time w0 Hw r. subst r.
    destruct (wait_until_pred_split env (S fuel) lock abs_time pred w0)
      as (now & w0' & ts & w1 & pre & N & E & S & Eo & _ & Ec).
    rewrite N in Hw |- *. cbn [fst snd] in Hw |- *.
    rewrite E in Hw. cbn in Hw. subst w1.
    rewrite Eo, Ec, E, (wait_for_loop_true_at_once fuel lock ts pred w P).
    cbn [outcome_of calls_of fst snd].
    split; [reflexivity |]. split; [reflexivity |].
    destruct (Q pre S) as [Q1 Q2]. split; assumption.
Qed.

(** C1, as the code has it.  Let the lock not be held.  [wait(lock)] throws
    the precondition error without calling [pthread_cond_wait].  When the
    lock has a mutex, [wait_for(lock, rel_time)] and
    [wait_until(lock, abs_time)] throw it without calling
    [pthread_cond_timedwait].  The predicate forms do the same provided the
    first evaluation of the predicate answers [false].  The error is the
    [system_error] for [operation_not_permitted]. *)
Theorem wait_on_lock_not_held_fails (fuel : nat) (lock : unique_lock)
  (pred : W -> bool * W) (d : Chrono.duration)
  (abs_time : Chrono.time_point) (w : W) :
  owns_lock lock = false ->
  code (CondVar.mutex_not_locked env) = EPERM env /\
  (let r := CondVar.wait env lock w in
   fails_precondition env r /\ never_blocks (calls_of r)) /\
  (fst (pred w) = false ->
   let r := CondVar.wait_pred env (S fuel) lock pred w in
   fails_precondition env r /\ never_blocks (calls_of r)) /\
  (forall m, mutex lock = Some m ->
     (let r := CondVar.wait_for env lock d w in
      fails_precondition env r /\ never_blocks (calls_of r)) /\
     (let r := CondVar.wait_until env lock abs_time w in
      fails_precondition env r /\ never_blocks (calls_of r)) /\
     (fst (pred (world_of (CondVar.to_abs_time_ env d w))) = false ->
      let r := CondVar.wait_for_pred env (S fuel) lock d pred w in
      fails_precondition env r /\ never_blocks (calls_of r)) /\
     (fst (pred (world_of (CondVar.to_abs_time_ env
                   (Chrono.time_point_minus abs_time (fst (Clock_now env w)))
                   (snd (Clock_now env w))))) = false ->
      let r := CondVar.wait_until_pred env (S fuel) lock abs_time pred w in
      fails_precondition env r /\ never_blocks (calls_of r))).
Proof.
  intros H. unfold fails_precondition.
  assert (Q : forall (pre t : list event),
            (pre = [] \/ exists mono, pre = [Call_clock_gettime mono]) ->
            never_blocks t -> never_blocks (pre ++ t)).
  { intros pre t [-> | [mono ->]] B; exact B. }
  split; [reflexivity |]. split; [| split].
  - cbn zeta. rewrite (wait_not_held env lock w H). split; reflexivity.
  - intros P. cbn zeta. rewrite wait_pred_step.
    destruct (pred w) as [b w1]. cbn in P. subst b.
    rewrite (wait_not_held env lock w1 H). split; reflexivity.
  - intros m M. split; [| split; [| split]].
    + cbn zeta.
      destruct (wait_for_ends_in_wait_until_ env lock d w)
        as (ts & w1 & pre & E & Eo & Ec).
      destruct (to_abs_time__returns env d w) as (ts' & w1' & pre' & E' & S).
      rewrite E in E'. inversion E'; subst ts' w1' pre'.
      rewrite Eo, Ec, (wait_until__not_held env lock m ts w1 M H).
      split; [reflexivity |]. now apply Q.
    + cbn zeta.
      destruct (wait_until_ends_in_wait_until_ env lock abs_time w)
        as (now & w0 & ts & w1 & pre & N & E & Eo & Ec).
      destruct (to_abs_time__returns env
                  (Chrono.time_point_minus abs_time now) w0)
        as (ts' & w1' & pre' & E' & S).
      rewrite E in E'. inversion E'; subst ts' w1' pre'.
      rewrite Eo, Ec, (wait_until__not_held env lock m ts w1 M H).
      split; [reflexivity |].
      apply (Q pre [Call_owns_lock false] S). reflexivity.
    + intros P; cbn zeta.
      destruct (wait_for_pred_split env (S fuel) lock d pred w)
        as (ts & w1 & pre & E & S & Eo & _ & Ec).
      rewrite E in P. cbn [world_of fst snd] in P.
      rewrite Eo, Ec, (wait_for_loop_not_held fuel lock m ts pred w1 M H P).
      split; [reflexivity |]. now apply Q.
    + intros P; cbn zeta.
      destruct (wait_until_pred_split env (S fuel) lock abs_time pred w)
        as (now & w0 & ts & w1 & pre & N & E & S & Eo & _ & Ec).
      rewrite N in P. cbn [fst snd] in P.
      rewrite E in P. cbn [world_of fst snd] in P.
      rewrite Eo, Ec, (wait_for_loop_not_held fuel lock m ts pred w1 M H P).
      split; [reflexivity |].
      apply (Q pre [Call_pred false; Call_owns_lock false] S). reflexivity.
Qed.

(** C5.  For a duration that is not positive the deadline is the zero
    timespec, and computing it reads no clock and leaves the environment
    as it was.  On a held lock [wait_for(lock, rel_time)] then hands that
    zero deadline to [pthread_cond_timedwait] in its one call, and returns
    [timeout] when the call reports the deadline as passed. *)
Theorem nonpositive_duration_gives_zero_deadline (lock : unique_lock)
  (m : native_mutex) (d : Chrono.duration) (w : W) :
  Chrono.count d <= 0 ->
  CondVar.to_abs_time_ env d w = (Returned (mk_timespec 0 0), w, []) /\
  (held_on lock m -> ETIMEDOUT env <> 0 ->
   fst (pthread_cond_timedwait env m (mk_timespec 0 0) w) = ETIMEDOUT env ->
   CondVar.wait_for env lock d w =
     (Returned timeout,
      snd (pthread_cond_timedwait env m (mk_timespec 0 0) w),
      [Call_owns_lock true;
       Call_cond_timedwait m (mk_timespec 0 0) (ETIMEDOUT env)])).
Proof.
  intros Hd.
  assert (E : CondVar.to_abs_time_ env d w =
              (Returned (mk_timespec 0 0), w, [])).
  { unfold CondVar.to_abs_time_, Chrono.le_zero.
    destruct (Z.leb_spec (Chrono.count d) 0); [reflexivity | lia]. }
  split; [exact E |].
  intros [M H] T A.
  unfold CondVar.wait_for, bind. rewrite E.
  rewrite (wait_until__held env lock m _ w M H).
  destruct (pthread_cond_timedwait env m (mk_timespec 0 0) w) as [rc w1].
  cbn in A. subst rc. cbn [snd].
  destruct (Z.eqb_spec (ETIMEDOUT env) 0) as [Z0 | _]; [contradiction |].
  rewrite Z.eqb_refl. reflexivity.
Qed.

(** C7.  [wait_until(lock, abs_time)] is [wait_for(lock, abs_time - now)]
    with [now] read from the caller's clock first, and the same holds with
    a predicate: same outcome, same final state of the environment, same
    calls in the same order, for every fuel. *)
Theorem wait_until_is_wait_for_of_difference (fuel : nat)
  (lock : unique_lock) (abs_time : Chrono.time_point)
  (pred : W -> bool * W) (w : W) :
  CondVar.wait_until env lock abs_time w =
    wait_until_as_wait_for env lock abs_time w /\
  CondVar.wait_until_pred env fuel lock abs_time pred w =
    wait_until_pred_as_wait_for env fuel lock abs_time pred w.
Proof.
  split.
  - unfold CondVar.wait_until, wait_until_as_wait_for, CondVar.wait_for.
    reflexivity.
  - unfold CondVar.wait_until_pred, wait_until_pred_as_wait_for,
      CondVar.wait_for_pred, bind, call.
    destruct (Clock_now env w) as [now w0].
    destruct (CondVar.to_abs_time_ env
                (Chrono.time_point_minus abs_time now) w0)
      as [[[ts | e | u |] w1] pre]; try reflexivity.
Qed.

End LockCheck.

(** ** The deadline *)

Section Deadline.

Context {W : Type} (env : Env W).

(** The two conversions [to_abs_time_] makes, for a positive duration that
    fits 64 bits once in nanoseconds: the whole seconds and the nanoseconds
    beyond them are those of the specification. *)
Lemma split_of_duration (d : Chrono.duration) :
  DeadlineSpec.positive_period d ->
  0 < Chrono.count d ->
  DeadlineSpec.representable_in_ns d ->
  let s := Chrono.duration_cast Chrono.ratio_one d in
  let ns := Chrono.duration_minus (Chrono.duration_cast Chrono.nano d)
              (Chrono.duration_cast Chrono.nano s) in
  Chrono.count s = DeadlineSpec.whole_seconds d /\
  Chrono.count ns = DeadlineSpec.fractional_nanos d /\
  0 <= DeadlineSpec.fractional_nanos d < DeadlineSpec.one_second.
Proof.
  intros [N D] C R s ns.
  unfold DeadlineSpec.representable_in_ns in R.
  pose proof (seconds_factor_le_nanoseconds_factor (Chrono.period d) N D)
    as Le.
  assert (Es : Chrono.count s = DeadlineSpec.whole_seconds d).
  { subst s. rewrite duration_cast_exact; try assumption;
      try (cbn; lia); [| nia].
    unfold DeadlineSpec.whole_seconds. cbn [Chrono.ratio_one Chrono.r_num
      Chrono.r_den]. now rewrite !Z.mul_1_r. }
  assert (Et : Chrono.count (Chrono.duration_cast Chrono.nano d) =
               (Chrono.count d * Chrono.r_num (Chrono.period d)
                * DeadlineSpec.one_second)
               / Chrono.r_den (Chrono.period d)).
  { rewrite duration_cast_exact; try assumption; try (cbn; lia).
    cbn [Chrono.nano Chrono.r_num Chrono.r_den].
    now rewrite Z.mul_1_r, Z.mul_assoc. }
  assert (A : 0 <= Chrono.count d * Chrono.r_num (Chrono.period d)) by nia.
  destruct (fraction_of_second _ _ DeadlineSpec.one_second A D
              ltac:(unfold DeadlineSpec.one_second; lia)) as [F B].
  fold (DeadlineSpec.whole_seconds d) in F.
  fold (DeadlineSpec.fractional_nanos d) in F, B.
  assert (Tmax : Chrono.count (Chrono.duration_cast Chrono.nano d)
                 <= Int64.max_signed).
  { rewrite Et.
    unfold Chrono.ratio_divide in R. cbn [Chrono.nano Chrono.r_num
      Chrono.r_den] in R. fold DeadlineSpec.one_second in R.
    set (n := Chrono.r_num (Chrono.period d) * DeadlineSpec.one_second) in *.
    set (dd := Chrono.r_den (Chrono.period d) * 1) in *.
    assert (Hn : 0 < n) by (subst n; unfold DeadlineSpec.one_second; lia).
    assert (Hd : 0 < dd) by (subst dd; lia).
    destruct (reduced_positive n dd Hn Hd) as [Pn Pd].
    pose proof (reduced_quotient (Chrono.count d) n dd Hn Hd) as Q.
    replace (Chrono.count d * Chrono.r_num (Chrono.period d)
             * DeadlineSpec.one_second / Chrono.r_den (Chrono.period d))
      with (Chrono.count d * n / dd)
      by (subst n dd; now rewrite Z.mul_1_r, Z.mul_assoc).
    rewrite <- Q.
    etransitivity; [| exact R].
    apply Z.div_le_upper_bound; [lia | nia]. }
  assert (En : Chrono.count ns = DeadlineSpec.fractional_nanos d).
  { subst ns. unfold Chrono.duration_minus. cbn [Chrono.count].
    change s with (Chrono.seconds (Chrono.count s)).
    rewrite seconds_to_nanoseconds, Es.
    fold DeadlineSpec.one_second.
    assert (S0 : 0 <= DeadlineSpec.whole_seconds d).
    { unfold DeadlineSpec.whole_seconds. apply Z.div_pos; lia. }
    rewrite Et in Tmax |- *.
    unfold Int64.mul, Int64.sub.
    rewrite (wrap_in_range (DeadlineSpec.whole_seconds d
                            * DeadlineSpec.one_second)).
    - rewrite F. apply wrap_in_range.
      unfold Int64.in_range, Int64.min_signed, Int64.max_signed,
        DeadlineSpec.one_second in *. lia.
    - unfold Int64.in_range, Int64.min_signed, Int64.max_signed,
        DeadlineSpec.one_second in *. lia. }
  repeat split; try assumption; apply B.
Qed.

(** Whole-second periods: the products may wrap, the nanoseconds beyond
    the whole seconds are zero all the same. *)
Lemma split_whole_second_period (d : Chrono.duration) :
  DeadlineSpec.positive_period d ->
  DeadlineSpec.whole_second_period d ->
  (forall x,
     Int64.add x (Chrono.count (Chrono.duration_cast Chrono.ratio_one d)) =
     Int64.wrap (x + DeadlineSpec.whole_seconds d)) /\
  Chrono.count
    (Chrono.duration_minus (Chrono.duration_cast Chrono.nano d)
       (Chrono.duration_cast Chrono.nano
          (Chrono.duration_cast Chrono.ratio_one d))) =
    DeadlineSpec.fractional_nanos d /\
  0 <= DeadlineSpec.fractional_nanos d < DeadlineSpec.one_second.
Proof.
  intros [HN _] HD. unfold DeadlineSpec.whole_second_period in HD.
  set (c := Chrono.count d). set (N := Chrono.r_num (Chrono.period d)) in *.
  assert (F1 : Chrono.ratio_divide (Chrono.period d) Chrono.ratio_one
               = Chrono.mk_ratio N 1).
  { unfold Chrono.ratio_divide. rewrite HD. fold N.
    cbn [Chrono.ratio_one Chrono.r_num Chrono.r_den].
    rewrite Z.mul_1_r. change (1 * 1) with 1.
    rewrite Z.gcd_1_r, Z.div_1_r. reflexivity. }
  assert (F2 : Chrono.ratio_divide (Chrono.period d) Chrono.nano
               = Chrono.mk_ratio (N * DeadlineSpec.one_second) 1).
  { unfold Chrono.ratio_divide. rewrite HD. fold N.
    cbn [Chrono.nano Chrono.r_num Chrono.r_den].
    change (1 * 1) with 1.
    rewrite Z.gcd_1_r, Z.div_1_r. reflexivity. }
  pose proof (duration_cast_whole_factor Chrono.ratio_one d) as S.
  rewrite F1 in S. specialize (S eq_refl). cbn [Chrono.r_num] in S.
  pose proof (duration_cast_whole_factor Chrono.nano d) as T.
  rewrite F2 in T. specialize (T eq_refl). cbn [Chrono.r_num] in T.
  fold c in S, T.
  assert (Z0 : DeadlineSpec.fractional_nanos d = 0).
  { unfold DeadlineSpec.fractional_nanos. rewrite HD, Z.mod_1_r.
    reflexivity. }
  assert (WS : DeadlineSpec.whole_seconds d = c * N).
  { unfold DeadlineSpec.whole_seconds. rewrite HD, Z.div_1_r. reflexivity. }
  split; [| split].
  - intros x. unfold Int64.add.
    rewrite <- wrap_add_wrap_r, S, wrap_add_wrap_r, WS. reflexivity.
  - rewrite Z0. unfold Chrono.duration_minus. cbn [Chrono.count].
    change (Chrono.duration_cast Chrono.ratio_one d)
      with (Chrono.seconds
              (Chrono.count (Chrono.duration_cast Chrono.ratio_one d))).
    rewrite seconds_to_nanoseconds.
    unfold Int64.sub, Int64.mul.
    rewrite <- wrap_sub_wrap, T, wrap_idempotent.
    rewrite <- (wrap_mul_wrap_l
                  (Chrono.count (Chrono.duration_cast Chrono.ratio_one d))),
      S, wrap_mul_wrap_l.
    replace (c * N * 1000000000) with (c * (N * DeadlineSpec.one_second))
      by (unfold DeadlineSpec.one_second; lia).
    rewrite Z.sub_diag. reflexivity.
  - rewrite Z0. unfold DeadlineSpec.one_second. lia.
Qed.

(** Decimal fractions of a second: the product may wrap, the nanoseconds
    beyond the whole seconds are what they should be all the same. *)
Lemma split_decimal_fraction_period (d : Chrono.duration) :
  DeadlineSpec.positive_period d ->
  0 < Chrono.count d ->
  DeadlineSpec.decimal_fraction_period d ->
  (forall x,
     Int64.add x (Chrono.count (Chrono.duration_cast Chrono.ratio_one d)) =
     Int64.wrap (x + DeadlineSpec.whole_seconds d)) /\
  Chrono.count
    (Chrono.duration_minus (Chrono.duration_cast Chrono.nano d)
       (Chrono.duration_cast Chrono.nano
          (Chrono.duration_cast Chrono.ratio_one d))) =
    DeadlineSpec.fractional_nanos d /\
  0 <= DeadlineSpec.fractional_nanos d < DeadlineSpec.one_second.
Proof.
  intros [_ HD] C [HN [K HK]].
  set (c := Chrono.count d) in *.
  set (D := Chrono.r_den (Chrono.period d)) in *.
  assert (K0 : 0 < K) by (unfold DeadlineSpec.one_second in HK; nia).
  assert (F1 : Chrono.ratio_divide (Chrono.period d) Chrono.ratio_one
               = Chrono.mk_ratio 1 D).
  { unfold Chrono.ratio_divide. rewrite HN. fold D.
    cbn [Chrono.ratio_one Chrono.r_num Chrono.r_den].
    rewrite !Z.mul_1_r, Z.gcd_1_l, !Z.div_1_r. reflexivity. }
  assert (F2 : Chrono.ratio_divide (Chrono.period d) Chrono.nano
               = Chrono.mk_ratio K 1).
  { unfold Chrono.ratio_divide. rewrite HN. fold D.
    cbn [Chrono.nano Chrono.r_num Chrono.r_den].
    rewrite Z.mul_1_r. change (1 * 1000000000) with DeadlineSpec.one_second.
    assert (G : Z.gcd DeadlineSpec.one_second D = D).
    { rewrite Z.gcd_comm. apply Z.divide_gcd_iff; [lia |].
      exists K. exact HK. }
    rewrite G, Z.div_same by lia.
    rewrite HK, Z.div_mul by lia. reflexivity. }
  pose proof (duration_cast_unit_fraction Chrono.ratio_one d) as S.
  rewrite F1 in S. specialize (S eq_refl). cbn [Chrono.r_den] in S.
  fold c in S. rewrite Z.quot_div_nonneg in S by lia.
  pose proof (duration_cast_whole_factor Chrono.nano d) as T.
  rewrite F2 in T. specialize (T eq_refl). cbn [Chrono.r_num] in T.
  fold c in T.
  assert (WS : DeadlineSpec.whole_seconds d = c / D).
  { unfold DeadlineSpec.whole_seconds. rewrite HN, Z.mul_1_r. reflexivity. }
  pose proof (Z.div_mod c D ltac:(lia)) as DM.
  pose proof (Z.mod_pos_bound c D HD) as MB.
  assert (FN : DeadlineSpec.fractional_nanos d = (c mod D) * K).
  { unfold DeadlineSpec.fractional_nanos. rewrite HN, Z.mul_1_r. fold c D.
    rewrite HK, Z.mul_assoc, Z.div_mul by lia. reflexivity. }
  assert (B : 0 <= (c mod D) * K < DeadlineSpec.one_second) by nia.
  split; [| split].
  - intros x. unfold Int64.add. rewrite S, WS. reflexivity.
  - rewrite FN. unfold Chrono.duration_minus. cbn [Chrono.count].
    change (Chrono.duration_cast Chrono.ratio_one d)
      with (Chrono.seconds
              (Chrono.count (Chrono.duration_cast Chrono.ratio_one d))).
    rewrite seconds_to_nanoseconds, S.
    unfold Int64.sub, Int64.mul.
    rewrite <- wrap_sub_wrap, T, wrap_idempotent, wrap_sub_wrap.
    replace (c * K - c / D * 1000000000) with ((c mod D) * K)
      by (unfold DeadlineSpec.one_second in HK; nia).
    apply wrap_in_range.
    unfold Int64.in_range, Int64.min_signed, Int64.max_signed,
      DeadlineSpec.one_second in *. lia.
  - rewrite FN. exact B.
Qed.

(** The three cases together. *)
Lemma split_of_exact_duration (d : Chrono.duration) :
  DeadlineSpec.positive_period d ->
  0 < Chrono.count d ->
  DeadlineSpec.splits_exactly d ->
  (forall x,
     Int64.add x (Chrono.count (Chrono.duration_cast Chrono.ratio_one d)) =
     Int64.wrap (x + DeadlineSpec.whole_seconds d)) /\
  Chrono.count
    (Chrono.duration_minus (Chrono.duration_cast Chrono.nano d)
       (Chrono.duration_cast Chrono.nano
          (Chrono.duration_cast Chrono.ratio_one d))) =
    DeadlineSpec.fractional_nanos d /\
  0 <= DeadlineSpec.fractional_nanos d < DeadlineSpec.one_second.
Proof.
  intros P C [R | [Wh | De]].
  - destruct (split_of_duration d P C R) as (Es & En & B).
    split; [| split; assumption].
    intros x. unfold Int64.add. rewrite Es. reflexivity.
  - exact (split_whole_second_period d P Wh).
  - exact (split_decimal_fraction_period d P C De).
Qed.


End Deadline.

(** ** The theorems at concrete inputs *)

Section ConcreteRuns.

(** The scripted runs, evaluated. *)
Lemma true_after_timeout_run :
  Runs.true_after_timeout =
  (Returned true,
   Script.mk_script [] [] Script.at_boot (Script.epoch Chrono.nano),
   [Call_clock_gettime Script.at_boot;
    Call_pred false; Call_owns_lock true;
    Call_cond_timedwait 7 (mk_timespec 1001 0) 110;
    Call_pred true]).
Proof. vm_compute. reflexivity. Qed.

Lemma true_at_third_evaluation_run :
  Runs.true_at_third_evaluation =
  (Returned tt,
   Script.mk_script [] [] Script.at_boot (Script.epoch Chrono.nano),
   [Call_pred false; Call_owns_lock true; Call_cond_wait 7 0;
    Call_pred false; Call_owns_lock true; Call_cond_wait 7 0;
    Call_pred true]).
Proof. vm_compute. reflexivity. Qed.

Lemma false_at_timeout_run :
  Runs.false_at_timeout =
  (Returned false,
   Script.mk_script [] [] Script.at_boot (Script.epoch Chrono.nano),
   [Call_clock_gettime Script.at_boot;
    Call_pred false; Call_owns_lock true;
    Call_cond_timedwait 7 (mk_timespec 1001 0) 0;
    Call_pred false; Call_owns_lock true;
    Call_cond_timedwait 7 (mk_timespec 1001 0) 110;
    Call_pred false]).
Proof. vm_compute. reflexivity. Qed.

(** The four ways a construction can go. *)
Lemma construct_runs :
  Runs.construct [12] =
    (Thrown (CondVar.generic_error 12), Script.start [] [],
     [Call_condattr_init 12]) /\
  Runs.construct [0; 22] =
    (Thrown (CondVar.generic_error 22), Script.start [] [],
     [Call_condattr_init 0; Call_condattr_setclock 22;
      Call_condattr_destroy]) /\
  Runs.construct [0; 0; 11] =
    (Thrown (CondVar.generic_error 11), Script.start [] [],
     [Call_condattr_init 0; Call_condattr_setclock 0; Call_cond_init 11;
      Call_condattr_destroy]) /\
  Runs.construct [0; 0; 0] =
    (Returned tt, Script.start [] [],
     [Call_condattr_init 0; Call_condattr_setclock 0; Call_cond_init 0;
      Call_condattr_destroy]).
Proof. repeat split. Qed.

(** An absolute predicate wait that is woken up twice and then times out:
    one reading of each clock, then three timed waits at the one deadline. *)
Lemma until_times_out_run :
  Runs.until_times_out =
  (Returned false, Script.start [] [],
   [Call_Clock_now (Script.epoch Chrono.nano);
    Call_clock_gettime Script.at_boot;
    Call_pred false; Call_owns_lock true;
    Call_cond_timedwait 7 (mk_timespec 1001 0) 0;
    Call_pred false; Call_owns_lock true;
    Call_cond_timedwait 7 (mk_timespec 1001 0) 0;
    Call_pred false; Call_owns_lock true;
    Call_cond_timedwait 7 (mk_timespec 1001 0) 110;
    Call_pred false]).
Proof. vm_compute. reflexivity. Qed.

(** What the deadline computation does with the longest wait one can ask
    for in seconds: the nanosecond field is valid, the second field has
    wrapped around. *)
Lemma deadline_of_longest_wait :
  outcome_of (CondVar.to_abs_time_ Script.env
                (Chrono.seconds Int64.max_signed) Runs.late_in_second)
  = Returned (mk_timespec (-9223372036854774809) 999999999).
Proof. vm_compute. reflexivity. Qed.


(** The timed waits read the mutex through the lock before they check the
    lock: on a lock without a mutex [wait] throws the precondition error,
    the timed waits leave defined behaviour. *)
Lemma timed_wait_dereferences_before_check :
  outcome_of (CondVar.wait Script.env Script.no_mutex (Script.start [] []))
    = Thrown (CondVar.mutex_not_locked Script.env) /\
  outcome_of (CondVar.wait_for Script.env Script.no_mutex (Chrono.seconds 1)
                (Script.start [] []))
    = Undefined Null_mutex_dereference.
Proof. split; reflexivity. Qed.

(** Counterexample to C1 as stated: with a predicate that is true from the
    start, [wait(lock, pred)] on a lock that is not held returns, and
    throws nothing. *)
Lemma wait_pred_on_lock_not_held_returns :
  owns_lock Script.not_held = false /\
  outcome_of Runs.true_pred_on_lock_not_held = Returned tt /\
  ~ fails_precondition Script.env Runs.true_pred_on_lock_not_held.
Proof.
  split; [reflexivity |]. split; [reflexivity |].
  unfold fails_precondition. cbn. discriminate.
Qed.

(** The run of [Runs.late_flag], evaluated: one evaluation of the
    predicate, false; one timed wait at deadline second 1001, which times
    out a microsecond after the deadline; one more evaluation, true. *)
Lemma late_flag_run :
  Runs.late_flag =
  (Returned true,
   Timed.mk_world (1001 * Timed.second + 1000) (1001 * Timed.second + 500)
     1000,
   [Call_clock_gettime (mk_timespec 1000 0);
    Call_pred false; Call_owns_lock true;
    Call_cond_timedwait 7 (mk_timespec 1001 0) 110;
    Call_pred true]).
Proof. vm_compute. reflexivity. Qed.

(** In the timed environment the predicate is false at every instant
    before the flag is raised. *)
Lemma pred_false_before_flag (w : Timed.world) (t : Z) :
  t < Timed.flag_raised_at w -> Timed.pred_at w t = false.
Proof.
  intros H. unfold Timed.pred_at, Timed.pred. cbn.
  apply Z.leb_gt. exact H.
Qed.

(** Counterexample to C3 as stated: a wait of one second whose predicate
    becomes true half a microsecond after the deadline.  The deadline is
    second 1001, the predicate is false at the deadline and (by
    [pred_false_before_flag]) at every instant before it, the timed wait
    reports the timeout, and the result is [true]: the predicate did not
    become true strictly before the deadline, and was not seen true before
    the timeout was reported. *)
Lemma wait_for_pred_true_after_deadline :
  outcome_of Runs.late_flag = Returned true /\
  outcome_of (CondVar.to_abs_time_ Timed.env (Chrono.seconds 1)
                Timed.flag_just_after_deadline)
    = Returned (mk_timespec 1001 0) /\
  Timed.instant (mk_timespec 1001 0)
    < Timed.flag_raised_at Timed.flag_just_after_deadline /\
  Timed.pred_at Timed.flag_just_after_deadline
    (Timed.instant (mk_timespec 1001 0)) = false /\
  timeout_reported (ETIMEDOUT Timed.env) (calls_of Runs.late_flag) = true /\
  true_before_timeout (ETIMEDOUT Timed.env) (calls_of Runs.late_flag)
    = false.
Proof. rewrite late_flag_run. repeat split. Qed.

(** C4 at a timed wait that times out. *)
Lemma timed_wait_maps_return_code_witness :
  mutex Script.held = Some 7 /\ owns_lock Script.held = true /\
  ETIMEDOUT Script.env <> 0 /\
  outcome_of (CondVar.wait_until_ Script.env Script.held
                (mk_timespec 1001 0) (Script.start [110] []))
    = Returned timeout /\
  calls_of (CondVar.wait_until_ Script.env Script.held
              (mk_timespec 1001 0) (Script.start [110] []))
    = [Call_owns_lock true; Call_cond_timedwait 7 (mk_timespec 1001 0) 110].
Proof.
  split; [reflexivity |]. split; [reflexivity |].
  split; [cbn; discriminate |].
  destruct (timed_wait_maps_return_code Script.env Script.held 7
              (mk_timespec 1001 0) (Script.start [110] [])
              eq_refl eq_refl ltac:(cbn; discriminate))
    as (C & _ & [T _] & _).
  split; [apply T; reflexivity | exact C].
Defined.

(** C6 at a run woken up twice before the predicate is true. *)
Lemma wait_pred_returns_only_after_true_pred_witness :
  outcome_of Runs.true_at_third_evaluation = Returned tt /\
  woken_until_true Script.held (calls_of Runs.true_at_third_evaluation) /\
  (exists before,
     calls_of Runs.true_at_third_evaluation = before ++ [Call_pred true]).
Proof.
  split; [reflexivity |].
  destruct (wait_pred_returns_only_after_true_pred Script.env 5 Script.held
              Script.pred (Script.start [0; 0] [false; false; true]))
    as (R & _).
  destruct (R eq_refl) as (S & L & _).
  split; [exact S | exact L].
Defined.

(** C3 at a run that times out with the predicate still false, and C3 at
    the run in which the predicate is true after the timeout. *)
Lemma wait_for_pred_returns_last_pred_witness :
  ETIMEDOUT Script.env <> 0 /\
  outcome_of Runs.false_at_timeout = Returned false /\
  (exists before,
     calls_of Runs.false_at_timeout = before ++ [Call_pred false]) /\
  outcome_of Runs.true_after_timeout = Returned true /\
  (exists before,
     calls_of Runs.true_after_timeout = before ++ [Call_pred true]).
Proof.
  split; [cbn; discriminate |].
  split; [reflexivity |].
  destruct (wait_for_pred_returns_last_pred Script.env 5 Script.held
              (Chrono.seconds 1) Script.pred
              (Script.start [0; 110] [false; false; false])
              ltac:(cbn; discriminate))
    as (R & _).
  destruct (R false eq_refl) as (_ & L & _).
  split; [exact L |].
  split; [reflexivity |].
  destruct (wait_for_pred_returns_last_pred Script.env 3 Script.held
              (Chrono.seconds 1) Script.pred
              (Script.start [110] [false; true])
              ltac:(cbn; discriminate))
    as (R' & _).
  destruct (R' true eq_refl) as (_ & L' & _).
  exact L'.
Defined.

(** C10 at a lock without a mutex. *)
Lemma true_predicate_skips_the_wait_witness :
  fst (Script.pred (Script.start [] [true])) = true /\
  outcome_of (CondVar.wait_pred Script.env 1 Script.no_mutex Script.pred
                (Script.start [] [true])) = Returned tt /\
  outcome_of (CondVar.wait_for_pred Script.env 1 Script.no_mutex
                (Chrono.seconds 1) Script.pred (Script.start [] [true]))
    = Returned true /\
  outcome_of (CondVar.wait_until_pred Script.env 1 Script.no_mutex
                Runs.one_second_after_epoch Script.pred
                (Script.start [] [true]))
    = Returned true.
Proof.
  split; [reflexivity |].
  destruct (true_predicate_skips_the_wait Script.env 0 Script.no_mutex
              Script.pred (Script.start [] [true]) eq_refl)
    as (A & B & C).
  split; [apply A |].
  split.
  - apply (B (Chrono.seconds 1) (Script.start [] [true]) eq_refl).
  - apply (C Runs.one_second_after_epoch (Script.start [] [true]) eq_refl).
Defined.

(** C1 at a lock that has a mutex and does not hold it. *)
Lemma wait_on_lock_not_held_fails_witness :
  owns_lock Script.not_held = false /\
  fails_precondition Script.env
    (CondVar.wait Script.env Script.not_held (Script.start [] [false])) /\
  fails_precondition Script.env
    (CondVar.wait_pred Script.env 1 Script.not_held Script.pred
       (Script.start [] [false])) /\
  fails_precondition Script.env
    (CondVar.wait_for Script.env Script.not_held (Chrono.seconds 1)
       (Script.start [] [false])) /\
  fails_precondition Script.env
    (CondVar.wait_until_pred Script.env 1 Script.not_held
       Runs.one_second_after_epoch Script.pred (Script.start [] [false])).
Proof.
  split; [reflexivity |].
  destruct (wait_on_lock_not_held_fails Script.env 0 Script.not_held
              Script.pred (Chrono.seconds 1) Runs.one_second_after_epoch
              (Script.start [] [false]) eq_refl)
    as (_ & A & B & C).
  destruct (C 7 eq_refl) as (D & _ & _ & E).
  split; [apply A |].
  split; [apply (B eq_refl) |].
  split; [apply D | apply (E eq_refl)].
Defined.

(** C5 at a duration of minus one second. *)
Lemma nonpositive_duration_gives_zero_deadline_witness :
  Chrono.count (Chrono.seconds (-1)) <= 0 /\
  CondVar.to_abs_time_ Script.env (Chrono.seconds (-1))
    (Script.start [110] []) =
    (Returned (mk_timespec 0 0), Script.start [110] [], []) /\
  outcome_of (CondVar.wait_for Script.env Script.held (Chrono.seconds (-1))
                (Script.start [110] [])) = Returned timeout.
Proof.
  split; [cbn; lia |].
  destruct (nonpositive_duration_gives_zero_deadline Script.env Script.held
              7 (Chrono.seconds (-1)) (Script.start [110] [])
              ltac:(cbn; lia))
    as (A & B).
  split; [exact A |].
  rewrite (B (conj eq_refl eq_refl) ltac:(cbn; discriminate) eq_refl).
  reflexivity.
Defined.


End ConcreteRuns.

(** * Further properties of the class *)

(** ** Notifications and the plain wait *)

Section NotifyAndWait.

Context {W : Type} (env : Env W).

(** X1.  [notify_one] makes one call, [pthread_cond_signal], and
    [notify_all] one call, [pthread_cond_broadcast]; each returns exactly
    when its call answers [0] and otherwise throws a [system_error] that
    carries the code answered.  Neither can block. *)
Theorem notify_throws_what_pthread_answers (w : W) :
  let one := CondVar.notify_one env w in
  let all := CondVar.notify_all env w in
  let rc1 := fst (pthread_cond_signal env w) in
  let rc2 := fst (pthread_cond_broadcast env w) in
  (calls_of one = [Call_cond_signal rc1] /\
   (outcome_of one = Returned tt <-> rc1 = 0) /\
   (forall e, outcome_of one = Thrown e <->
              rc1 <> 0 /\ e = CondVar.generic_error rc1)) /\
  (calls_of all = [Call_cond_broadcast rc2] /\
   (outcome_of all = Returned tt <-> rc2 = 0) /\
   (forall e, outcome_of all = Thrown e <->
              rc2 <> 0 /\ e = CondVar.generic_error rc2)).
Proof.
  cbn zeta. rewrite notify_one_run, notify_all_run.
  destruct (pthread_cond_signal env w) as [rc1 w1].
  destruct (pthread_cond_broadcast env w) as [rc2 w2].
  cbn [fst snd outcome_of calls_of].
  split.
  - split; [reflexivity |].
    destruct (Z.eqb_spec rc1 0) as [-> | N]; split.
    + tauto.
    + intros e; split; [discriminate | intros [C _]; congruence].
    + split; [discriminate | contradiction].
    + intros e; split.
      * intros E; inversion E; subst e. now split.
      * intros [_ ->]. reflexivity.
  - split; [reflexivity |].
    destruct (Z.eqb_spec rc2 0) as [-> | N]; split.
    + tauto.
    + intros e; split; [discriminate | intros [C _]; congruence].
    + split; [discriminate | contradiction].
    + intros e; split.
      * intros E; inversion E; subst e. now split.
      * intros [_ ->]. reflexivity.
Qed.

(** X2.  On a held lock [wait(lock)] checks the lock and calls
    [pthread_cond_wait] once, on the lock's mutex.  It returns exactly when
    the call answers [0]; every other code is thrown as a [system_error]
    carrying it.  Unlike the timed wait it has no code for a timeout:
    [ETIMEDOUT] is thrown like the rest. *)
Theorem wait_throws_every_nonzero_code (lock : unique_lock)
  (m : native_mutex) (w : W) :
  held_on lock m ->
  let r := CondVar.wait env lock w in
  let rc := fst (pthread_cond_wait env m w) in
  calls_of r = [Call_owns_lock true; Call_cond_wait m rc] /\
  world_of r = snd (pthread_cond_wait env m w) /\
  (outcome_of r = Returned tt <-> rc = 0) /\
  (forall e, outcome_of r = Thrown e <->
             rc <> 0 /\ e = CondVar.generic_error rc) /\
  (ETIMEDOUT env <> 0 -> rc = ETIMEDOUT env ->
   outcome_of r = Thrown (CondVar.generic_error (ETIMEDOUT env))).
Proof.
  intros [M H]. cbn zeta. rewrite (wait_held env lock m w H M).
  destruct (pthread_cond_wait env m w) as [rc w1].
  cbn [fst snd outcome_of calls_of world_of].
  split; [reflexivity |]. split; [reflexivity |].
  destruct (Z.eqb_spec rc 0) as [-> | N].
  - split; [tauto |]. split.
    + intros e; split; [discriminate | intros [C _]; congruence].
    + intros T E. congruence.
  - split; [split; [discriminate | contradiction] |]. split.
    + intros e; split.
      * intros E; inversion E; subst e. now split.
      * intros [_ ->]. reflexivity.
    + intros _ ->. reflexivity.
Qed.

End NotifyAndWait.

(** ** Resources *)

Section Resources.

Context {W : Type} (env : Env W).

(** X3.  However the constructor ends, it has destroyed the attribute
    object as often as it has created one (once or never), it has created
    the condition object at most once, and exactly once when it returns;
    it makes at most four calls and none that can block. *)
Theorem constructor_releases_the_attribute (w : W) :
  let r := CondVar.condition_variable env w in
  count_calls is_attr_created (calls_of r) =
    count_calls is_attr_destroyed (calls_of r) /\
  (count_calls is_attr_created (calls_of r) <= 1)%nat /\
  (outcome_of r = Returned tt ->
   count_calls is_cond_created (calls_of r) = 1%nat) /\
  ((exists e, outcome_of r = Thrown e) ->
   count_calls is_cond_created (calls_of r) = 0%nat) /\
  (List.length (calls_of r) <= 4)%nat /\
  never_blocks (calls_of r).
Proof.
  intros r. unfold count_calls, never_blocks.
  destruct (condition_variable_cases env w)
    as [(rc & N & O & C) | [(rc & N & O & C) | [(rc & N & O & C) | (O & C)]]];
    fold r in O, C; rewrite O, C; cbn -[Z.eqb];
    try (destruct (Z.eqb_spec rc 0) as [E | _]; [contradiction |]);
    cbn; repeat split; try lia; try discriminate;
    try (intros [e E]; discriminate).
Qed.

(** X4.  An object that is constructed and then destroyed: when the
    constructor throws, the destructor does not run, the error is the
    constructor's and [pthread_cond_destroy] is not called; when it
    returns, [pthread_cond_destroy] is the one call that follows.  Either
    way the condition object and the attribute object have each been
    destroyed as often as they were created. *)
Theorem lifetime_balances_resources (w : W) :
  let c := CondVar.condition_variable env w in
  let r := construct_then_destroy env w in
  (forall e, outcome_of c = Thrown e ->
     outcome_of r = Thrown e /\ calls_of r = calls_of c) /\
  (outcome_of c = Returned tt ->
     outcome_of r = Returned tt /\
     calls_of r = calls_of c ++ [Call_cond_destroy]) /\
  count_calls is_cond_created (calls_of r) =
    count_calls is_cond_destroyed (calls_of r) /\
  count_calls is_attr_created (calls_of r) =
    count_calls is_attr_destroyed (calls_of r).
Proof.
  intros c r. subst c r.
  unfold construct_then_destroy, bind, CondVar.destroy, call_void,
    count_calls.
  destruct (condition_variable_cases env w)
    as [(rc & N & O & C) | [(rc & N & O & C) | [(rc & N & O & C) | (O & C)]]];
    destruct (CondVar.condition_variable env w) as [[o w1] t];
    cbn [outcome_of calls_of fst snd] in *; subst o t;
    cbn -[Z.eqb];
    try (destruct (Z.eqb_spec rc 0) as [E | _]; [contradiction |]);
    cbn; repeat split; try discriminate; try assumption;
    try (intros e E; inversion E; reflexivity).
Qed.

End Resources.

(** ** How the predicate waits fail, and when they never end *)

Section PredicateWaitFailures.

Context {W : Type} (env : Env W).




End PredicateWaitFailures.

Section PredicateWaitEndings.

Context {W : Type} (env : Env W).

(** X7.  While the predicate stays false and every [pthread_cond_wait]
    answers [0], [wait(lock, pred)] on a held lock does not end: whatever
    fuel it is given, it uses it all up, in as many rounds of "predicate
    false, woken up". *)
Theorem wait_pred_keeps_waiting_while_pred_false (lock : unique_lock)
  (m : native_mutex) (pred : W -> bool * W) (fuel : nat) (w : W) :
  held_on lock m ->
  (forall w', fst (pred w') = false) ->
  (forall w', fst (pthread_cond_wait env m w') = 0) ->
  outcome_of (CondVar.wait_pred env fuel lock pred w) = Out_of_fuel /\
  calls_of (CondVar.wait_pred env fuel lock pred w) =
    false_rounds (Call_cond_wait m 0) fuel.
Proof.
  intros [M H] P A. revert w.
  induction fuel as [| fuel IH]; intros w.
  - split; reflexivity.
  - rewrite wait_pred_step.
    specialize (P w). destruct (pred w) as [b w1]. cbn in P. subst b.
    rewrite (wait_held env lock m w1 H M).
    specialize (A w1). destruct (pthread_cond_wait env m w1) as [rc w2].
    cbn in A. subst rc. cbn [Z.eqb].
    destruct (IH w2) as [O C].
    destruct (CondVar.wait_pred env fuel lock pred w2) as [[o w3] t3].
    cbn in *. subst o t3. split; reflexivity.
Qed.

Lemma wait_for_loop_keeps_waiting (lock : unique_lock) (m : native_mutex)
  (ts : timespec) (pred : W -> bool * W) (fuel : nat) :
  held_on lock m ->
  (forall w', fst (pred w') = false) ->
  (forall w', fst (pthread_cond_timedwait env m ts w') = 0) ->
  forall w,
    outcome_of (CondVar.wait_for_loop env fuel lock ts pred w) = Out_of_fuel
    /\ calls_of (CondVar.wait_for_loop env fuel lock ts pred w) =
         false_rounds (Call_cond_timedwait m ts 0) fuel.
Proof.
  intros [M H] P A.
  induction fuel as [| fuel IH]; intros w.
  - split; reflexivity.
  - rewrite wait_for_loop_step.
    specialize (P w). destruct (pred w) as [b w1]. cbn in P. subst b.
    rewrite (wait_until__held env lock m ts w1 M H).
    specialize (A w1).
    destruct (pthread_cond_timedwait env m ts w1) as [rc w2].
    cbn in A. subst rc. cbn [Z.eqb].
    destruct (IH w2) as [O C].
    destruct (CondVar.wait_for_loop env fuel lock ts pred w2)
      as [[o w3] t3].
    cbn in *. subst o t3. split; reflexivity.
Qed.

(** X8.  The loop of the timed predicate waits does not look at the time
    itself: it ends on a true predicate, on [ETIMEDOUT] or on an error, and
    on nothing else.  While the predicate stays false and every
    [pthread_cond_timedwait] answers [0], [wait_for(lock, rel_time, pred)]
    on a held lock uses up whatever fuel it is given, for every duration,
    a zero or negative one included, in as many rounds at the one deadline
    computed at the start. *)
Theorem wait_for_pred_relies_on_the_timed_wait (lock : unique_lock)
  (m : native_mutex) (pred : W -> bool * W) (fuel : nat)
  (d : Chrono.duration) (w : W) :
  held_on lock m ->
  (forall w', fst (pred w') = false) ->
  (forall ts w', fst (pthread_cond_timedwait env m ts w') = 0) ->
  outcome_of (CondVar.wait_for_pred env fuel lock d pred w) = Out_of_fuel /\
  exists ts,
    outcome_of (CondVar.to_abs_time_ env d w) = Returned ts /\
    calls_of (CondVar.wait_for_pred env fuel lock d pred w) =
      calls_of (CondVar.to_abs_time_ env d w) ++
      false_rounds (Call_cond_timedwait m ts 0) fuel.
Proof.
  intros Hm P A.
  destruct (wait_for_pred_split env fuel lock d pred w)
    as (ts & w1 & pre & E & _ & Eo & _ & Ec).
  destruct (wait_for_loop_keeps_waiting lock m ts pred fuel Hm P
              (A ts) w1) as [O C].
  rewrite Eo, Ec, E, O, C. split; [reflexivity |].
  exists ts. split; reflexivity.
Qed.

Lemma timed_rounds_without_timeout (lock : unique_lock) (ts : timespec)
  (et : Z) (t : list event) (b : bool) :
  et <> 0 ->
  timed_rounds lock ts et t b ->
  timeout_reported et t = false -> b = true.
Proof.
  intros N. induction 1 as [| m b Hm | m t b Hm _ IH]; cbn -[Z.eqb].
  - reflexivity.
  - rewrite Z.eqb_refl. cbn. discriminate.
  - destruct (Z.eqb_spec 0 et) as [E | _]; [congruence |]. exact IH.
Qed.

Lemma timeout_reported_after_clock (et : Z) (pre t : list event) :
  (pre = [] \/ exists now, pre = [Call_clock_gettime now]) ->
  timeout_reported et (pre ++ t) = timeout_reported et t.
Proof. intros [-> | [now ->]]; reflexivity. Qed.

(** X9.  [wait_for(lock, rel_time, pred)] returns [false] only after a
    timeout: the last two calls of such a run are a timed wait that
    answered [ETIMEDOUT] and the evaluation of the predicate that answered
    [false].  A run in which no timed wait answered [ETIMEDOUT] returns
    [true], if it returns. *)
Theorem wait_for_pred_false_only_after_timeout (fuel : nat)
  (lock : unique_lock) (d : Chrono.duration) (pred : W -> bool * W)
  (w : W) :
  ETIMEDOUT env <> 0 ->
  let r := CondVar.wait_for_pred env fuel lock d pred w in
  (outcome_of r = Returned false ->
   timeout_reported (ETIMEDOUT env) (calls_of r) = true /\
   exists m ts before,
     calls_of r = before ++
       [Call_cond_timedwait m ts (ETIMEDOUT env); Call_pred false]) /\
  (forall b, outcome_of r = Returned b ->
     timeout_reported (ETIMEDOUT env) (calls_of r) = false -> b = true).
Proof.
  intros T r. subst r.
  destruct (wait_for_pred_split env fuel lock d pred w)
    as (ts & w1 & pre & E & S & Eo & _ & Ec).
  rewrite Eo, Ec, (timeout_reported_after_clock _ _ _ S).
  split.
  - intros O.
    destruct (wait_for_loop_returned env fuel lock ts pred w1 false O)
      as [R _].
    assert (F : true_before_timeout (ETIMEDOUT env)
                  (calls_of (CondVar.wait_for_loop env fuel lock ts pred w1))
                = false).
    { destruct (true_before_timeout _ _) eqn:B; [| reflexivity].
      pose proof (timed_rounds_true_before_timeout lock ts _ _ _ R B).
      discriminate. }
    split.
    + destruct (timeout_reported _ _) eqn:B; [reflexivity |].
      pose proof (timed_rounds_without_timeout lock ts _ _ _ T R B).
      discriminate.
    + destruct (timed_rounds_timeout_last lock ts _ _ _ T R F)
        as (m & before & ->).
      exists m, ts, (pre ++ before). now rewrite <- app_assoc.
  - intros b O B.
    destruct (wait_for_loop_returned env fuel lock ts pred w1 b O) as [R _].
    exact (timed_rounds_without_timeout lock ts _ _ _ T R B).
Qed.

End PredicateWaitEndings.

(** ** More on deadlines *)

Section Deadlines.

Context {W : Type} (env : Env W).

(** What [to_abs_time_] returns for a positive duration that splits
    exactly, before any assumption on the size of the seconds. *)
Lemma to_abs_time__of_positive (d : Chrono.duration) (w : W) :
  DeadlineSpec.positive_period d ->
  0 < Chrono.count d ->
  DeadlineSpec.splits_exactly d ->
  DeadlineSpec.valid_nsec (fst (clock_gettime env w)) ->
  CondVar.to_abs_time_ env d w =
    (Returned
       (mk_timespec
          (Int64.wrap (tv_sec (DeadlineSpec.deadline
                                 (fst (clock_gettime env w)) d)))
          (tv_nsec (DeadlineSpec.deadline (fst (clock_gettime env w)) d))),
     snd (clock_gettime env w),
     [Call_clock_gettime (fst (clock_gettime env w))]) /\
  DeadlineSpec.valid_nsec
    (DeadlineSpec.deadline (fst (clock_gettime env w)) d).
Proof.
  intros P C R V.
  destruct (split_of_exact_duration d P C R) as (Es & En & B).
  unfold CondVar.to_abs_time_, Chrono.le_zero.
  destruct (Z.leb_spec (Chrono.count d) 0) as [L | _]; [lia |].
  unfold bind, call, ret.
  destruct (clock_gettime env w) as [[s0 ns0] w1].
  cbn [fst snd tv_sec tv_nsec] in *.
  rewrite Es, En.
  unfold DeadlineSpec.valid_nsec, DeadlineSpec.deadline, DeadlineSpec.carry
    in *.
  cbn [tv_sec tv_nsec Chrono.nano Chrono.r_den] in *.
  fold DeadlineSpec.one_second.
  set (f := DeadlineSpec.fractional_nanos d) in *.
  set (S := DeadlineSpec.whole_seconds d) in *.
  assert (A : Int64.add ns0 f = ns0 + f).
  { apply wrap_in_range.
    unfold Int64.in_range, Int64.min_signed, Int64.max_signed,
      DeadlineSpec.one_second in *. lia. }
  rewrite A.
  destruct (Z.leb_spec DeadlineSpec.one_second (ns0 + f)) as [Ca | Ca].
  - assert (A2 : Int64.sub (ns0 + f) DeadlineSpec.one_second
                 = ns0 + f - DeadlineSpec.one_second).
    { apply wrap_in_range.
      unfold Int64.in_range, Int64.min_signed, Int64.max_signed,
        DeadlineSpec.one_second in *. lia. }
    rewrite A2. unfold Int64.add at 1. rewrite wrap_add_wrap_l.
    split; [| lia].
    replace (ns0 + f - DeadlineSpec.one_second * 1)
      with (ns0 + f - DeadlineSpec.one_second) by lia.
    reflexivity.
  - split; [| lia].
    replace (s0 + S + 0) with (s0 + S) by lia.
    replace (ns0 + f - DeadlineSpec.one_second * 0) with (ns0 + f) by lia.
    reflexivity.
Qed.

(** The instant the deadline of the specification denotes. *)
Lemma instant_of_deadline (now : timespec) (d : Chrono.duration) :
  DeadlineSpec.positive_period d ->
  0 <= Chrono.count d ->
  Timed.instant (DeadlineSpec.deadline now d) =
    Timed.instant now + duration_ns d /\
  0 <= DeadlineSpec.whole_seconds d /\
  0 <= DeadlineSpec.fractional_nanos d < DeadlineSpec.one_second /\
  duration_ns d =
    DeadlineSpec.whole_seconds d * DeadlineSpec.one_second
    + DeadlineSpec.fractional_nanos d.
Proof.
  intros [N D] C.
  assert (A : 0 <= Chrono.count d * Chrono.r_num (Chrono.period d)) by nia.
  destruct (fraction_of_second _ _ DeadlineSpec.one_second A D
              ltac:(unfold DeadlineSpec.one_second; lia)) as [F B].
  fold (DeadlineSpec.whole_seconds d) in F.
  fold (DeadlineSpec.fractional_nanos d) in F, B.
  fold (duration_ns d) in F.
  assert (S0 : 0 <= DeadlineSpec.whole_seconds d).
  { unfold DeadlineSpec.whole_seconds. apply Z.div_pos; lia. }
  split; [| split; [exact S0 | split; [exact B | lia]]].
  unfold Timed.instant, DeadlineSpec.deadline, Timed.second.
  cbn [tv_sec tv_nsec]. unfold DeadlineSpec.one_second in *. lia.
Qed.

(** X10.  For a positive duration the deadline denotes the instant of the
    clock reading plus the duration truncated to whole nanoseconds, as long
    as its seconds fit [time_t]: it is never before the reading, and for a
    duration shorter than a nanosecond it is the reading itself. *)
Theorem deadline_is_reading_plus_duration (d : Chrono.duration) (w : W) :
  DeadlineSpec.positive_period d ->
  0 < Chrono.count d ->
  DeadlineSpec.splits_exactly d ->
  DeadlineSpec.valid_nsec (fst (clock_gettime env w)) ->
  Int64.in_range
    (tv_sec (DeadlineSpec.deadline (fst (clock_gettime env w)) d)) ->
  exists ts,
    outcome_of (CondVar.to_abs_time_ env d w) = Returned ts /\
    Timed.instant ts =
      Timed.instant (fst (clock_gettime env w)) + duration_ns d /\
    Timed.instant (fst (clock_gettime env w)) <= Timed.instant ts /\
    DeadlineSpec.valid_nsec ts /\
    (duration_ns d = 0 -> ts = fst (clock_gettime env w)).
Proof.
  intros P C R V I.
  destruct (to_abs_time__of_positive d w P C R V) as [E Vd].
  destruct (instant_of_deadline (fst (clock_gettime env w)) d P
              ltac:(lia)) as (In & S0 & F & Dn).
  rewrite (wrap_in_range _ I) in E.
  exists (DeadlineSpec.deadline (fst (clock_gettime env w)) d).
  split; [rewrite E; reflexivity |].
  split; [exact In |].
  split; [rewrite In; unfold DeadlineSpec.one_second in *; lia |].
  split; [exact Vd |].
  intros Z0.
  assert (S1 : DeadlineSpec.whole_seconds d = 0)
    by (unfold DeadlineSpec.one_second in *; lia).
  assert (F1 : DeadlineSpec.fractional_nanos d = 0)
    by (unfold DeadlineSpec.one_second in *; lia).
  destruct (fst (clock_gettime env w)) as [s0 ns0].
  unfold DeadlineSpec.deadline, DeadlineSpec.carry, DeadlineSpec.valid_nsec
    in *.
  cbn [tv_sec tv_nsec] in *. rewrite S1, F1.
  destruct (Z.leb_spec DeadlineSpec.one_second (ns0 + 0)) as [L | _];
    [lia |].
  f_equal; lia.
Qed.



Lemma duration_cast_same_period (d : Chrono.duration) :
  0 < Chrono.r_num (Chrono.period d) ->
  0 < Chrono.r_den (Chrono.period d) ->
  Chrono.duration_cast (Chrono.period d) d = d.
Proof.
  destruct d as [c [n dd]]. cbn [Chrono.period Chrono.r_num Chrono.r_den].
  intros N D.
  unfold Chrono.duration_cast, Chrono.ratio_divide.
  cbn [Chrono.period Chrono.count Chrono.r_num Chrono.r_den].
  rewrite (Z.mul_comm dd n), Z.gcd_diag, Z.abs_eq by nia.
  rewrite Z.div_same by nia. reflexivity.
Qed.

Lemma common_period_same (p : Chrono.ratio) :
  0 < Chrono.r_num p -> 0 < Chrono.r_den p -> Chrono.common_period p p = p.
Proof.
  destruct p as [n d]. cbn [Chrono.r_num Chrono.r_den]. intros N D.
  unfold Chrono.common_period. cbn [Chrono.r_num Chrono.r_den].
  rewrite Z.gcd_diag, Z.lcm_diag, !Z.abs_eq by lia. reflexivity.
Qed.

(** Two time points counted in one period: their difference is the
    difference of their tick counts, in that period. *)
Lemma time_point_minus_same_period (a b : Chrono.time_point) :
  Chrono.period (Chrono.since_epoch b) = Chrono.period (Chrono.since_epoch a) ->
  0 < Chrono.r_num (Chrono.period (Chrono.since_epoch a)) ->
  0 < Chrono.r_den (Chrono.period (Chrono.since_epoch a)) ->
  Chrono.time_point_minus a b =
  Chrono.mk_duration
    (Int64.sub (Chrono.count (Chrono.since_epoch a))
               (Chrono.count (Chrono.since_epoch b)))
    (Chrono.period (Chrono.since_epoch a)).
Proof.
  intros E N D.
  unfold Chrono.time_point_minus, Chrono.duration_minus_common.
  rewrite E, (common_period_same _ N D).
  rewrite (duration_cast_same_period (Chrono.since_epoch a) N D).
  rewrite <- E at 1.
  rewrite (duration_cast_same_period (Chrono.since_epoch b));
    [reflexivity | rewrite E; exact N | rewrite E; exact D].
Qed.

(** X12.  [wait_until] with a time point counted in the period of the
    caller's clock, not after the reading of that clock, and with a
    difference of tick counts that fits 64 bits: the remaining time is not
    positive, so the deadline is the zero timespec; the monotonic clock is
    not read, and the wait is [wait_until_] at the zero timespec, in the
    plain form and in every round of the predicate form. *)
Theorem wait_until_past_time_point (fuel : nat) (lock : unique_lock)
  (abs_time : Chrono.time_point) (pred : W -> bool * W) (w : W) :
  Chrono.period (Chrono.since_epoch (fst (Clock_now env w))) =
    Chrono.period (Chrono.since_epoch abs_time) ->
  DeadlineSpec.positive_period (Chrono.since_epoch abs_time) ->
  Chrono.count (Chrono.since_epoch abs_time) <=
    Chrono.count (Chrono.since_epoch (fst (Clock_now env w))) ->
  Int64.in_range
    (Chrono.count (Chrono.since_epoch abs_time)
     - Chrono.count (Chrono.since_epoch (fst (Clock_now env w)))) ->
  outcome_of (CondVar.wait_until env lock abs_time w) =
    outcome_of (CondVar.wait_until_ env lock (mk_timespec 0 0)
                  (snd (Clock_now env w))) /\
  calls_of (CondVar.wait_until env lock abs_time w) =
    Call_Clock_now (fst (Clock_now env w)) ::
    calls_of (CondVar.wait_until_ env lock (mk_timespec 0 0)
                (snd (Clock_now env w))) /\
  never_reads_clock (calls_of (CondVar.wait_until env lock abs_time w)) /\
  never_reads_clock
    (calls_of (CondVar.wait_until_pred env fuel lock abs_time pred w)) /\
  all_timedwaits_at (mk_timespec 0 0)
    (calls_of (CondVar.wait_until_pred env fuel lock abs_time pred w)).
Proof.
  intros Ep [Pn Pd] Le I.
  destruct (Clock_now env w) as [now w0] eqn:N. cbn [fst snd] in *.
  assert (Z0 : CondVar.to_abs_time_ env
                 (Chrono.time_point_minus abs_time now) w0 =
               (Returned (mk_timespec 0 0), w0, [])).
  { rewrite (time_point_minus_same_period abs_time now Ep Pn Pd).
    unfold CondVar.to_abs_time_, Chrono.le_zero. cbn [Chrono.count].
    unfold Int64.sub.
    rewrite (wrap_in_range
               (Chrono.count (Chrono.since_epoch abs_time)
                - Chrono.count (Chrono.since_epoch now)) I).
    destruct (Z.leb_spec
                (Chrono.count (Chrono.since_epoch abs_time)
                 - Chrono.count (Chrono.since_epoch now)) 0);
      [reflexivity | lia]. }
  assert (U : CondVar.wait_until env lock abs_time w =
              let '(o, w2, t) :=
                CondVar.wait_until_ env lock (mk_timespec 0 0) w0 in
              (o, w2, Call_Clock_now now :: t)).
  { unfold CondVar.wait_until, bind, call. rewrite N, Z0.
    destruct (CondVar.wait_until_ env lock (mk_timespec 0 0) w0)
      as [[o w2] t]. reflexivity. }
  rewrite U.
  destruct (wait_until_pred_split env fuel lock abs_time pred w)
    as (now' & w0' & ts & w1 & pre & N' & E & _ & _ & _ & Ec).
  rewrite N in N'. inversion N'; subst now' w0'.
  rewrite Z0 in E. inversion E; subst ts w1 pre.
  destruct (wait_for_loop_keeps_deadline env fuel lock (mk_timespec 0 0)
              pred w0) as [A C].
  rewrite Ec.
  destruct (wait_until__cases env lock (mk_timespec 0 0) w0)
    as [(_ & X) | [(_ & X) | (m0 & rc0 & w2 & _ & _ & X)]]; rewrite X;
    (split; [reflexivity |]); (split; [reflexivity |]);
    (split; [reflexivity |]); (split; [exact C |]);
    intros m ts' rc [J | J]; try discriminate; exact (A _ _ _ J).
Qed.

(** X14.  [wait_for(lock, rel_time, pred)] with a duration that is not
    positive, on a held lock, with the predicate false: the predicate is
    evaluated, one timed wait is made at the zero timespec and, when that
    reports the timeout, the predicate is evaluated once more and its
    answer returned.  No clock is read. *)
Theorem nonpositive_wait_for_pred_polls_twice (fuel : nat)
  (lock : unique_lock) (m : native_mutex) (d : Chrono.duration)
  (pred : W -> bool * W) (w : W) :
  Chrono.count d <= 0 ->
  held_on lock m ->
  ETIMEDOUT env <> 0 ->
  fst (pred w) = false ->
  fst (pthread_cond_timedwait env m (mk_timespec 0 0) (snd (pred w)))
    = ETIMEDOUT env ->
  let w2 := snd (pthread_cond_timedwait env m (mk_timespec 0 0)
                   (snd (pred w))) in
  CondVar.wait_for_pred env (S fuel) lock d pred w =
    (Returned (fst (pred w2)), snd (pred w2),
     [Call_pred false; Call_owns_lock true;
      Call_cond_timedwait m (mk_timespec 0 0) (ETIMEDOUT env);
      Call_pred (fst (pred w2))]).
Proof.
  intros L [M H] T P A w2. subst w2.
  unfold CondVar.wait_for_pred, bind, CondVar.to_abs_time_, Chrono.le_zero.
  destruct (Z.leb_spec (Chrono.count d) 0) as [_ | G]; [| lia].
  cbn [ret]. rewrite wait_for_loop_step.
  destruct (pred w) as [b w1]. cbn [fst snd] in *. subst b.
  rewrite (wait_until__held env lock m _ w1 M H).
  destruct (pthread_cond_timedwait env m (mk_timespec 0 0) w1) as [rc w2].
  cbn [fst snd] in *. subst rc.
  destruct (Z.eqb_spec (ETIMEDOUT env) 0) as [E | _]; [contradiction |].
  rewrite Z.eqb_refl.
  destruct (pred w2) as [b' w3]. reflexivity.
Qed.

(** X15.  [wait_until] with a time point counted in the period of the
    caller's clock and after the reading of that clock moves the remaining
    time onto the monotonic clock: given that the remaining time fits 64
    bits and splits exactly, a valid reading of the monotonic clock and
    seconds that fit [time_t], every timed wait is handed one deadline,
    and that deadline denotes the reading of the monotonic clock plus the
    difference of the time point and the reading of the caller's clock, in
    whole nanoseconds. *)
Theorem wait_until_anchors_on_monotonic_clock (lock : unique_lock)
  (abs_time : Chrono.time_point) (w : W) :
  let now := fst (Clock_now env w) in
  let w0 := snd (Clock_now env w) in
  let remaining :=
    Chrono.mk_duration
      (Chrono.count (Chrono.since_epoch abs_time)
       - Chrono.count (Chrono.since_epoch now))
      (Chrono.period (Chrono.since_epoch abs_time)) in
  Chrono.period (Chrono.since_epoch now) =
    Chrono.period (Chrono.since_epoch abs_time) ->
  0 < Chrono.count remaining ->
  Int64.in_range (Chrono.count remaining) ->
  DeadlineSpec.positive_period remaining ->
  DeadlineSpec.splits_exactly remaining ->
  DeadlineSpec.valid_nsec (fst (clock_gettime env w0)) ->
  Int64.in_range
    (tv_sec (DeadlineSpec.deadline (fst (clock_gettime env w0)) remaining)) ->
  exists ts,
    all_timedwaits_at ts (calls_of (CondVar.wait_until env lock abs_time w))
    /\
    Timed.instant ts =
      Timed.instant (fst (clock_gettime env w0)) + duration_ns remaining /\
    DeadlineSpec.valid_nsec ts.
Proof.
  intros now w0 remaining. subst now w0.
  destruct (Clock_now env w) as [now w0] eqn:N. cbn [fst snd] in *.
  intros Ep C I P R V It.
  assert (Er : Chrono.time_point_minus abs_time now = remaining).
  { rewrite (time_point_minus_same_period abs_time now Ep
               (proj1 P) (proj2 P)).
    unfold remaining, Int64.sub.
    rewrite (wrap_in_range
               (Chrono.count (Chrono.since_epoch abs_time)
                - Chrono.count (Chrono.since_epoch now)) I).
    reflexivity. }
  destruct (to_abs_time__of_positive remaining w0 P C R V) as [E Vd].
  rewrite (wrap_in_range _ It) in E.
  destruct (instant_of_deadline (fst (clock_gettime env w0)) remaining P
              ltac:(lia)) as (In & _).
  set (ts := DeadlineSpec.deadline (fst (clock_gettime env w0)) remaining)
    in *.
  assert (Ets : mk_timespec (tv_sec ts) (tv_nsec ts) = ts)
    by (destruct ts; reflexivity).
  rewrite Ets in E.
  exists ts. split; [| split; [exact In | exact Vd]].
  assert (U : CondVar.wait_until env lock abs_time w =
              let '(o, w2, t) :=
                CondVar.wait_until_ env lock ts
                  (snd (clock_gettime env w0)) in
              (o, w2,
               Call_Clock_now now ::
               Call_clock_gettime (fst (clock_gettime env w0)) :: t)).
  { unfold CondVar.wait_until, bind, call. rewrite N, Er, E.
    destruct (CondVar.wait_until_ env lock ts (snd (clock_gettime env w0)))
      as [[o w2] t]. reflexivity. }
  rewrite U.
  destruct (wait_until__cases env lock ts (snd (clock_gettime env w0)))
    as [(_ & X) | [(_ & X) | (m0 & rc0 & w2 & _ & _ & X)]]; rewrite X;
    intros m ts' rc J; cbn in J;
    repeat (destruct J as [J | J];
            [try discriminate; inversion J; reflexivity |]);
    destruct J.
Qed.

End Deadlines.

(** ** The further properties at concrete inputs *)

Section MoreConcreteRuns.

(** Time points of different periods are subtracted in their common
    duration: six thousand milliseconds minus five seconds is a thousand
    milliseconds, ten thousand milliseconds minus five thousand million
    nanoseconds is five thousand million nanoseconds. *)
Lemma time_point_minus_mixed_periods :
  Chrono.time_point_minus
    (Chrono.mk_time_point (Chrono.mk_duration 6000 (Chrono.mk_ratio 1 1000)))
    (Chrono.mk_time_point (Chrono.seconds 5))
  = Chrono.mk_duration 1000 (Chrono.mk_ratio 1 1000) /\
  Chrono.time_point_minus
    (Chrono.mk_time_point (Chrono.mk_duration 10000 (Chrono.mk_ratio 1 1000)))
    (Chrono.mk_time_point (Chrono.nanoseconds 5000000000))
  = Chrono.nanoseconds 5000000000.
Proof. split; vm_compute; reflexivity. Qed.

(** Where the side conditions of X11 end: the largest count of ticks of
    two thirds of a second overflows on its way to nanoseconds, and the
    timed wait is handed a negative nanosecond field. *)
Lemma overflowing_duration_reaches_the_timed_wait :
  ~ all_timedwaits_valid
      (calls_of (CondVar.wait_for Script.env Script.held
                   Runs.longest_two_thirds (Script.start [0] []))).
Proof.
  intros A.
  assert (I : In (Call_cond_timedwait 7 (mk_timespec 1000 (-666666666)) 0)
                (calls_of (CondVar.wait_for Script.env Script.held
                             Runs.longest_two_thirds (Script.start [0] []))))
    by (vm_compute; right; right; left; reflexivity).
  destruct (A _ _ _ I) as [L _]. vm_compute in L. apply L. reflexivity.
Qed.

(** X2 at a wait that is answered [ETIMEDOUT]. *)
Lemma wait_throws_every_nonzero_code_witness :
  held_on Script.held 7 /\
  outcome_of (CondVar.wait Script.env Script.held (Script.start [110] []))
    = Thrown (CondVar.generic_error 110) /\
  calls_of (CondVar.wait Script.env Script.held (Script.start [110] []))
    = [Call_owns_lock true; Call_cond_wait 7 110].
Proof.
  assert (H : held_on Script.held 7) by (split; reflexivity).
  split; [exact H |].
  destruct (wait_throws_every_nonzero_code Script.env Script.held 7
              (Script.start [110] []) H)
    as (C & _ & _ & _ & T).
  split; [| exact C].
  apply T; [cbn; discriminate | reflexivity].
Defined.



(** X7 in the environment that never lets the thread sleep. *)
Lemma wait_pred_keeps_waiting_while_pred_false_witness :
  held_on Script.held 7 /\
  outcome_of (CondVar.wait_pred Restless.env 100 Script.held Restless.never
                O) = Out_of_fuel.
Proof.
  assert (H : held_on Script.held 7) by (split; reflexivity).
  split; [exact H |].
  apply (wait_pred_keeps_waiting_while_pred_false Restless.env Script.held 7
           Restless.never 100 O H (fun _ => eq_refl) (fun _ => eq_refl)).
Defined.

(** X8 in the same environment, with a negative duration. *)
Lemma wait_for_pred_relies_on_the_timed_wait_witness :
  held_on Script.held 7 /\
  outcome_of (CondVar.wait_for_pred Restless.env 100 Script.held
                (Chrono.seconds (-1)) Restless.never O) = Out_of_fuel /\
  calls_of (CondVar.wait_for_pred Restless.env 100 Script.held
              (Chrono.seconds (-1)) Restless.never O) =
    false_rounds (Call_cond_timedwait 7 (mk_timespec 0 0) 0) 100.
Proof.
  assert (H : held_on Script.held 7) by (split; reflexivity).
  split; [exact H |].
  destruct (wait_for_pred_relies_on_the_timed_wait Restless.env Script.held
              7 Restless.never 100 (Chrono.seconds (-1)) O H
              (fun _ => eq_refl) (fun _ _ => eq_refl))
    as (O1 & ts & Ets & C).
  split; [exact O1 |].
  inversion Ets; subst ts. exact C.
Defined.

(** X9 at a run that times out with the predicate false. *)
Lemma wait_for_pred_false_only_after_timeout_witness :
  ETIMEDOUT Script.env <> 0 /\
  outcome_of Runs.false_at_timeout = Returned false /\
  timeout_reported (ETIMEDOUT Script.env) (calls_of Runs.false_at_timeout)
    = true.
Proof.
  split; [cbn; discriminate |]. split; [reflexivity |].
  destruct (wait_for_pred_false_only_after_timeout Script.env 5 Script.held
              (Chrono.seconds 1) Script.pred
              (Script.start [0; 110] [false; false; false])
              ltac:(cbn; discriminate))
    as (F & _).
  destruct (F eq_refl) as (R & _). exact R.
Defined.

(** X10 at 999 picoseconds: the deadline is the reading of the clock. *)
Lemma deadline_is_reading_plus_duration_witness :
  DeadlineSpec.positive_period MoreRuns.ps_999 /\
  0 < Chrono.count MoreRuns.ps_999 /\
  DeadlineSpec.splits_exactly MoreRuns.ps_999 /\
  duration_ns MoreRuns.ps_999 = 0 /\
  outcome_of (CondVar.to_abs_time_ Script.env MoreRuns.ps_999
                Runs.late_in_second)
    = Returned (mk_timespec 1000 999999999).
Proof.
  assert (P : DeadlineSpec.positive_period MoreRuns.ps_999)
    by (split; reflexivity).
  assert (C : 0 < Chrono.count MoreRuns.ps_999) by reflexivity.
  assert (R : DeadlineSpec.splits_exactly MoreRuns.ps_999)
    by (left; vm_compute; discriminate).
  assert (V : DeadlineSpec.valid_nsec
                (fst (clock_gettime Script.env Runs.late_in_second)))
    by (split; [vm_compute; discriminate | reflexivity]).
  assert (I : Int64.in_range
                (tv_sec (DeadlineSpec.deadline
                           (fst (clock_gettime Script.env
                                   Runs.late_in_second))
                           MoreRuns.ps_999)))
    by (split; vm_compute; discriminate).
  split; [exact P |]. split; [exact C |]. split; [exact R |].
  split; [reflexivity |].
  destruct (deadline_is_reading_plus_duration Script.env MoreRuns.ps_999
              Runs.late_in_second P C R V I)
    as (ts & E & _ & _ & _ & Z0).
  rewrite E. f_equal. apply Z0. reflexivity.
Defined.


(** X12 at a time point one second before the reading of the caller's
    clock. *)
Lemma wait_until_past_time_point_witness :
  Chrono.count (Chrono.since_epoch Runs.one_second_after_epoch) <=
    Chrono.count (Chrono.since_epoch
                    (fst (Clock_now Script.env
                            MoreRuns.caller_at_two_seconds))) /\
  calls_of (CondVar.wait_until Script.env Script.held
              Runs.one_second_after_epoch MoreRuns.caller_at_two_seconds) =
    [Call_Clock_now (Chrono.mk_time_point (Chrono.nanoseconds 2000000000));
     Call_owns_lock true; Call_cond_timedwait 7 (mk_timespec 0 0) 110] /\
  never_reads_clock
    (calls_of (CondVar.wait_until_pred Script.env 3 Script.held
                 Runs.one_second_after_epoch Script.pred
                 MoreRuns.caller_at_two_seconds)).
Proof.
  assert (L : Chrono.count (Chrono.since_epoch Runs.one_second_after_epoch)
              <= Chrono.count
                   (Chrono.since_epoch
                      (fst (Clock_now Script.env
                              MoreRuns.caller_at_two_seconds))))
    by (vm_compute; discriminate).
  split; [exact L |].
  destruct (wait_until_past_time_point Script.env 3 Script.held
              Runs.one_second_after_epoch Script.pred
              MoreRuns.caller_at_two_seconds eq_refl
              ltac:(split; reflexivity) L
              ltac:(split; vm_compute; discriminate))
    as (_ & C & _ & N & _).
  split; [rewrite C; reflexivity | exact N].
Defined.

(** X14 at a wait of zero seconds whose predicate turns true during the
    one timed wait. *)
Lemma nonpositive_wait_for_pred_polls_twice_witness :
  Chrono.count (Chrono.seconds 0) <= 0 /\
  held_on Script.held 7 /\
  CondVar.wait_for_pred Script.env 1 Script.held (Chrono.seconds 0)
    Script.pred (Script.start [110] [false; true]) =
  (Returned true, Script.start [] [],
   [Call_pred false; Call_owns_lock true;
    Call_cond_timedwait 7 (mk_timespec 0 0) 110; Call_pred true]).
Proof.
  assert (H : held_on Script.held 7) by (split; reflexivity).
  split; [cbn; lia |]. split; [exact H |].
  exact (nonpositive_wait_for_pred_polls_twice Script.env 0 Script.held 7
           (Chrono.seconds 0) Script.pred (Script.start [110] [false; true])
           ltac:(cbn; lia) H ltac:(cbn; discriminate) eq_refl eq_refl).
Defined.

(** X15 at a time point one second after the reading of the caller's
    clock. *)
Lemma wait_until_anchors_on_monotonic_clock_witness :
  exists ts,
    all_timedwaits_at ts
      (calls_of (CondVar.wait_until Script.env Script.held
                   Runs.one_second_after_epoch (Script.start [110] []))) /\
    Timed.instant ts = Timed.instant Script.at_boot + 1000000000 /\
    In (Call_cond_timedwait 7 (mk_timespec 1001 0) 110)
      (calls_of (CondVar.wait_until Script.env Script.held
                   Runs.one_second_after_epoch (Script.start [110] []))).
Proof.
  destruct (wait_until_anchors_on_monotonic_clock Script.env Script.held
              Runs.one_second_after_epoch (Script.start [110] [])
              eq_refl
              ltac:(reflexivity)
              ltac:(split; vm_compute; discriminate)
              ltac:(split; reflexivity)
              ltac:(left; vm_compute; discriminate)
              ltac:(split; [vm_compute; discriminate | reflexivity])
              ltac:(split; vm_compute; discriminate))
    as (ts & A & I & _).
  exists ts. split; [exact A |]. split; [exact I |].
  vm_compute. right. right. right. left. reflexivity.
Defined.

End MoreConcreteRuns.
